(** * Supervision of the headless Chromium process (internal/pkg/chrome)

    A shallow embedding of [chrome.go]: command construction ([cmd]),
    group termination ([kill]), the bounded viability loop ([IsViable],
    [warmup]) and the self-recursive supervisor ([Start], [restart]).

    The operating system, the devtools endpoint and the [xexec] helper are
    outside the package.  They are modelled by a [World] of oracles, one
    answer per call, and every call is recorded in a trace of [event]s, so
    that statements about the order and the number of launches, probes and
    kills can be made on the trace.  Logging has no effect on control flow
    and is left out. *)

From Stdlib Require Import ZArith List String Ascii Bool Lia PeanoNat.
Import ListNotations.

Local Open Scope string_scope.
Local Open Scope list_scope.

(** ** Go values *)

(** Go's [int] on the supported targets: 64 bits, two's complement. *)
Definition int_min : Z := - 2 ^ 63.
Definition int_max : Z := 2 ^ 63 - 1.

Definition wrap_int (x : Z) : Z := ((x + 2 ^ 63) mod 2 ^ 64 - 2 ^ 63)%Z.

(** Unary minus on [int], as in [-proc.Pid]. *)
Definition neg_int (x : Z) : Z := wrap_int (- x).

(** Modelled from the spec: [xerror.New] lives in internal/pkg/xerror, which
    is not among the sources.  The spec only asks that launch and termination
    errors are propagated to the caller, so the wrapper is kept free: it
    records the operation tag and the cause and identifies nothing.  Errors
    born outside the package are known by the text of their [Error()]. *)
Inductive error : Type :=
| External (msg : string)
| XError (op : string) (cause : error).

(** [syscall.SysProcAttr], the one field the package sets. *)
Record SysProcAttr : Type := { Setpgid : bool }.

(** [exec.Cmd], as the package sees it: the binary and the arguments it
    hands to [xexec.Command] (the program name is not among them), and the
    process attributes it sets. *)
Record Cmd : Type := {
  Path : string;
  Args : list string;
  SysProcAttr_ : option SysProcAttr
}.

(** [os.Process]. *)
Record Process : Type := { Pid : Z }.

Inductive Signal : Type := SIGKILL.

(** [strings.Contains s substr]. *)
Fixpoint strings_Contains (s substr : string) : bool :=
  match s with
  | EmptyString => prefix substr EmptyString
  | String _ s' => prefix substr s || strings_Contains s' substr
  end.

(** ** The world outside the package *)

(** The answer to the n-th call of each external operation.  [None] is a nil
    error; a failure carries the text of its error. *)
Record World : Type := {
  (** [xexec.Command]: nil or the error it reports. *)
  xexec_Command : nat -> option string;
  (** [Start] of [exec.Cmd]: the error, or the pid of the spawned process. *)
  Cmd_Start : nat -> string + Z;
  (** [syscall.Kill]: nil or the errno's text. *)
  syscall_Kill : nat -> option string;
  (** [devtool.DevTools.Version]: nil or the transport error. *)
  devtool_Version : nat -> option string
}.

Inductive event : Type :=
| EvCommand (binary : string) (args : list string) (r : option string)
| EvStart (c : Cmd) (r : string + Z)
| EvKill (pid : Z) (sig : Signal) (r : option string)
| EvSleep
| EvVersion (endpoint : string) (r : option string).

Record State : Type := {
  ncommand : nat;
  nstart : nat;
  nkill : nat;
  nversion : nat;
  trace : list event
}.

Definition initial : State :=
  {| ncommand := 0; nstart := 0; nkill := 0; nversion := 0; trace := [] |}.

(** ** A state monad for the calls *)

Definition M (A : Type) : Type := State -> A * State.

Definition ret {A : Type} (a : A) : M A := fun st => (a, st).

Definition bind {A B : Type} (m : M A) (k : A -> M B) : M B :=
  fun st => let (a, st') := m st in k a st'.

Declare Scope chrome_scope.
Delimit Scope chrome_scope with chrome.
Notation "x <- m ;; k" := (bind m (fun x => k))
  (at level 61, m at next level, right associativity) : chrome_scope.
Notation "m ;;; k" := (bind m (fun _ => k))
  (at level 61, right associativity) : chrome_scope.
Local Open Scope chrome_scope.

(** A call of a function that may recurse without bound either returns or
    uses up the recursion depth granted to it. *)
Inductive outcome (A : Type) : Type :=
| Returned (a : A)
| OutOfDepth.
Arguments Returned {A} a.
Arguments OutOfDepth {A}.

Section Chrome.

Variable w : World.

(** *** External calls *)

Definition call_Command (binary : string) (args : list string)
  : M (Cmd + error) :=
  fun st =>
    let r := xexec_Command w (ncommand st) in
    let st' := {| ncommand := S (ncommand st); nstart := nstart st;
                  nkill := nkill st; nversion := nversion st;
                  trace := trace st ++ [EvCommand binary args r] |} in
    match r with
    | Some msg => (inr (External msg), st')
    | None =>
        (inl {| Path := binary; Args := args; SysProcAttr_ := None |}, st')
    end.

Definition call_Start (c : Cmd) : M (Process + error) :=
  fun st =>
    let r := Cmd_Start w (nstart st) in
    let st' := {| ncommand := ncommand st; nstart := S (nstart st);
                  nkill := nkill st; nversion := nversion st;
                  trace := trace st ++ [EvStart c r] |} in
    match r with
    | inl msg => (inr (External msg), st')
    | inr pid => (inl {| Pid := pid |}, st')
    end.

Definition call_Kill (pid : Z) (sig : Signal) : M (option string) :=
  fun st =>
    let r := syscall_Kill w (nkill st) in
    (r, {| ncommand := ncommand st; nstart := nstart st;
           nkill := S (nkill st); nversion := nversion st;
           trace := trace st ++ [EvKill pid sig r] |}).

Definition call_Version (endpoint : string) : M (option string) :=
  fun st =>
    let r := devtool_Version w (nversion st) in
    (r, {| ncommand := ncommand st; nstart := nstart st;
           nkill := nkill st; nversion := S (nversion st);
           trace := trace st ++ [EvVersion endpoint r] |}).

Definition call_Sleep : M unit :=
  fun st =>
    (tt, {| ncommand := ncommand st; nstart := nstart st;
            nkill := nkill st; nversion := nversion st;
            trace := trace st ++ [EvSleep] |}).

(** *** func cmd *)

Definition binary : string := "chromium".

Definition cmd_args (ignoreCertificateErrors : bool) : list string :=
  let args :=
    [ "--no-sandbox";
      "--headless";
      "--disable-dev-shm-usage";
      "--font-render-hinting=none";
      "--remote-debugging-port=9222";
      "--disable-gpu";
      "--disable-translate";
      "--disable-extensions";
      "--disable-background-networking";
      "--safebrowsing-disable-auto-update";
      "--disable-sync";
      "--disable-default-apps";
      "--hide-scrollbars";
      "--metrics-recording-only";
      "--mute-audio";
      "--no-first-run" ] in
  if ignoreCertificateErrors
  then args ++ ["--ignore-certificate-errors"]
  else args.

Definition cmd (ignoreCertificateErrors : bool) : M (Cmd + error) :=
  r <- call_Command binary (cmd_args ignoreCertificateErrors) ;;
  match r with
  | inr err => ret (inr (XError "chrome.cmd" err))
  | inl c =>
      ret (inl {| Path := Path c; Args := Args c;
                  SysProcAttr_ := Some {| Setpgid := true |} |})
  end.

(** *** func kill *)

Definition kill (proc : Process) : M (option error) :=
  let resolver : M (option error) :=
    err <- call_Kill (neg_int (Pid proc)) SIGKILL ;;
    match err with
    | None => ret None
    | Some msg =>
        if strings_Contains msg "no such process"
        then ret None
        else ret (Some (External msg))
    end in
  err <- resolver ;;
  match err with
  | Some e => ret (Some (XError "chrome.kill" e))
  | None => ret None
  end.

(** *** func warmup, func IsViable *)

Definition warmup : M unit := call_Sleep.

Definition maxViabilityTests : Z := 20.

Definition endpoint : string := "http://localhost:9222".

(** The closure [viable] of [IsViable]. *)
Definition viable : M (bool * option error) :=
  err <- call_Version endpoint ;;
  match err with
  | Some msg => ret (false, Some (External msg))
  | None => ret (true, None)
  end.

(** The [for] loop of [IsViable], from the state (i, result, err); [n]
    bounds the iterations left, [maxViabilityTests - i] suffice. *)
Fixpoint IsViable_loop (n : nat) (i : Z) (result : bool) (err : option error)
  : M (bool * option error) :=
  match n with
  | O => ret (result, err)
  | S n' =>
      if (i <? maxViabilityTests)%Z && negb result
      then warmup ;;;
           r <- viable ;;
           IsViable_loop n' (i + 1)%Z (fst r) (snd r)
      else ret (result, err)
  end.

Definition IsViable : M (bool * option error) :=
  IsViable_loop (Z.to_nat maxViabilityTests) 0%Z false None.

(** *** func restart, func Start *)

(** The tail of both resolvers: wrap a non-nil error with the operation. *)
Definition wrap (op : string) (r : outcome (option error))
  : outcome (option error) :=
  match r with
  | Returned (Some err) => Returned (Some (XError op err))
  | Returned None => Returned None
  | OutOfDepth => OutOfDepth
  end.

(** [depth] bounds the nesting of [restart] calls. *)
Fixpoint restart (depth : nat) (proc : Process)
         (ignoreCertificateErrors : bool) : M (outcome (option error)) :=
  match depth with
  | O => ret OutOfDepth
  | S depth' =>
      r <- (err <- kill proc ;;
            match err with
            | Some e => ret (Returned (Some e))
            | None =>
                c <- cmd ignoreCertificateErrors ;;
                match c with
                | inr e => ret (Returned (Some e))
                | inl c =>
                    p <- call_Start c ;;
                    match p with
                    | inr e => ret (Returned (Some e))
                    | inl p =>
                        v <- IsViable ;;
                        if negb (fst v)
                        then restart depth' p ignoreCertificateErrors
                        else ret (Returned None)
                    end
                end
            end) ;;
      ret (wrap "chrome.restart" r)
  end.

Definition Start (depth : nat) (ignoreCertificateErrors : bool)
  : M (outcome (option error)) :=
  r <- (c <- cmd ignoreCertificateErrors ;;
        match c with
        | inr e => ret (Returned (Some e))
        | inl c =>
            p <- call_Start c ;;
            match p with
            | inr e => ret (Returned (Some e))
            | inl p =>
                v <- IsViable ;;
                if negb (fst v)
                then restart depth p ignoreCertificateErrors
                else ret (Returned None)
            end
        end) ;;
  ret (wrap "chrome.Start" r).

End Chrome.

Arguments binary : simpl never.

(** ** Observations used in the statements *)

(** The text of [s] after the prefix [p], when [s] starts with [p]. *)
Fixpoint strip_prefix (p s : string) : option string :=
  match p, s with
  | EmptyString, _ => Some s
  | String a p', String b s' =>
      if Ascii.eqb a b then strip_prefix p' s' else None
  | String _ _, EmptyString => None
  end.

(** The values given to the flag [name] in an argument list
    ([name=value]), in order. *)
Fixpoint flag_values (name : string) (args : list string) : list string :=
  match args with
  | [] => []
  | a :: args' =>
      match strip_prefix (name ++ "=") a with
      | Some v => v :: flag_values name args'
      | None => flag_values name args'
      end
  end.

(** The text after the last occurrence of [c]. *)
Fixpoint after_last (c : ascii) (s : string) : option string :=
  match s with
  | EmptyString => None
  | String a s' =>
      match after_last c s' with
      | Some r => Some r
      | None => if Ascii.eqb a c then Some s' else None
      end
  end.

(** The port of a URL of the shape scheme://host:port. *)
Definition url_port (url : string) : option string := after_last ":" url.

(** The ports an event names: the debugging port in the arguments of a
    command that is built or started, the port of a probed endpoint. *)
Definition event_ports (e : event) : list string :=
  match e with
  | EvCommand _ args _ => flag_values "--remote-debugging-port" args
  | EvStart c _ => flag_values "--remote-debugging-port" (Args c)
  | EvVersion url _ =>
      match url_port url with Some p => [p] | None => [] end
  | EvKill _ _ _ | EvSleep => []
  end.

(** The outcomes of the probes of a trace, in order. *)
Fixpoint probes_of (l : list event) : list (option string) :=
  match l with
  | [] => []
  | EvVersion _ r :: l' => r :: probes_of l'
  | _ :: l' => probes_of l'
  end.

(** The sixteen flags of every launch, as the interface contract lists
    them. *)
Definition contract_flags : list string :=
  [ "--no-sandbox"; "--headless"; "--disable-dev-shm-usage";
    "--font-render-hinting=none"; "--remote-debugging-port=9222";
    "--disable-gpu"; "--disable-translate"; "--disable-extensions";
    "--disable-background-networking"; "--safebrowsing-disable-auto-update";
    "--disable-sync"; "--disable-default-apps"; "--hide-scrollbars";
    "--metrics-recording-only"; "--mute-audio"; "--no-first-run" ].

(** ** Functions used to state the behaviour of the loop and of the supervisor *)

(** What [viable] returns for the outcome [r] of its query. *)
Definition viable_result (r : option string) : bool * option error :=
  match r with
  | Some msg => (false, Some (External msg))
  | None => (true, None)
  end.

(** The number of attempts of a polling loop that starts at the [k]-th
    query of the world and repeats up to [ceiling] attempts or until one
    attempt reports viable, whichever comes first. *)
Fixpoint attempts (w : World) (k ceiling : nat) : nat :=
  match ceiling with
  | O => 0
  | S c =>
      match devtool_Version w k with
      | None => 1
      | Some _ => S (attempts w (S k) c)
      end
  end.

(** The events of [a] attempts from the [k]-th query on: a pause, then the
    query. *)
Fixpoint probe_events (w : World) (k a : nat) : list event :=
  match a with
  | O => []
  | S a' =>
      EvSleep :: EvVersion endpoint (devtool_Version w k)
              :: probe_events w (S k) a'
  end.

(** The part [Start] and [restart] have in common: build the command, start
    it, run the viability loop. *)
Inductive launched : Type :=
| Failed (e : error)
| Viable
| NotViable (p : Process).

Definition launch_and_probe (w : World) (b : bool) : M launched :=
  c <- cmd w b ;;
  match c with
  | inr e => ret (Failed e)
  | inl c =>
      p <- call_Start w c ;;
      match p with
      | inr e => ret (Failed e)
      | inl p =>
          v <- IsViable w ;;
          if negb (fst v) then ret (NotViable p) else ret Viable
      end
  end.

(** The state after one call of an external operation. *)
Definition after_Command (w : World) (b : bool) (st : State) : State :=
  {| ncommand := S (ncommand st); nstart := nstart st; nkill := nkill st;
     nversion := nversion st;
     trace := trace st ++ [EvCommand binary (cmd_args b)
                                     (xexec_Command w (ncommand st))] |}.

Definition after_Start (w : World) (c : Cmd) (st : State) : State :=
  {| ncommand := ncommand st; nstart := S (nstart st); nkill := nkill st;
     nversion := nversion st;
     trace := trace st ++ [EvStart c (Cmd_Start w (nstart st))] |}.

Definition after_kill (w : World) (proc : Process) (st : State) : State :=
  {| ncommand := ncommand st; nstart := nstart st; nkill := S (nkill st);
     nversion := nversion st;
     trace := trace st ++ [EvKill (neg_int (Pid proc)) SIGKILL
                                  (syscall_Kill w (nkill st))] |}.

Definition after_IsViable (w : World) (st : State) : State :=
  {| ncommand := ncommand st; nstart := nstart st; nkill := nkill st;
     nversion := nversion st + attempts w (nversion st) 20;
     trace := trace st ++
              probe_events w (nversion st) (attempts w (nversion st) 20) |}.

(** The command [cmd] returns when [xexec.Command] succeeds. *)
Definition chromium (b : bool) : Cmd :=
  {| Path := binary; Args := cmd_args b;
     SysProcAttr_ := Some {| Setpgid := true |} |}.

(** Whether a kill with outcome [r] lets [kill] return nil. *)
Definition kill_ok (r : option string) : bool :=
  match r with
  | None => true
  | Some msg => strings_Contains msg "no such process"
  end.

(** *** The process that holds the debugging port

    The supervisor owns one process group at a time.  A trace is read
    from left to right with the state of that ownership: nothing is running
    ([Free]), the process with pid [pid] was started and not yet killed
    ([Live pid]), or a kill failed and the stale process may still hold the
    port ([Stuck]).  A start is allowed only from [Free]; a kill is allowed
    only from [Live], has to aim at the group of the live process, and frees
    the port when the signal was delivered or the process was already gone.
    From [Stuck] nothing may be started or killed. *)
Inductive slot : Type :=
| Free
| Live (pid : Z)
| Stuck.

Definition lifecycle_step (s : slot) (e : event) : option slot :=
  match e with
  | EvStart _ r =>
      match s with
      | Free => Some (match r with inr pid => Live pid | inl _ => Free end)
      | Live _ | Stuck => None
      end
  | EvKill target _ r =>
      match s with
      | Live pid =>
          if (target =? neg_int pid)%Z
          then Some (if kill_ok r then Free else Stuck)
          else None
      | Free | Stuck => None
      end
  | EvCommand _ _ _ | EvSleep | EvVersion _ _ => Some s
  end.

Fixpoint lifecycle (s : slot) (l : list event) : option slot :=
  match l with
  | [] => Some s
  | e :: l' =>
      match lifecycle_step s e with
      | Some s' => lifecycle s' l'
      | None => None
      end
  end.

(** *** Counting the events of a trace *)

Definition is_kill (e : event) : bool :=
  match e with EvKill _ _ _ => true | _ => false end.

Definition is_launch (e : event) : bool :=
  match e with EvStart _ (inr _) => true | _ => false end.

Definition is_probe (e : event) : bool :=
  match e with EvVersion _ _ => true | _ => false end.

Definition count (p : event -> bool) (l : list event) : nat :=
  List.length (filter p l).

(** *** Reading an error *)

(** The error at the bottom of the wrappers. *)
Fixpoint root_cause (e : error) : error :=
  match e with
  | External _ => e
  | XError _ c => root_cause c
  end.


(** What is asked of a finished or cut-off run whose trace is read from
    [s0]: the trace respects the ownership of the port, and if it ends with
    the port stuck, its last event is the failed kill and the run returned
    an error whose root cause is that failure. *)
Definition settled (s0 : slot) (o : outcome (option error)) (st : State)
  : Prop :=
  match lifecycle s0 (trace st) with
  | None => False
  | Some Stuck =>
      exists msg e t pid,
        o = Returned (Some e) /\
        root_cause e = External msg /\
        strings_Contains msg "no such process" = false /\
        trace st = t ++ [EvKill pid SIGKILL (Some msg)]
  | Some Free | Some (Live _) => True
  end.

(** Whether an event names a port at all. *)
Definition names_port (e : event) : bool :=
  match e with
  | EvCommand _ _ _ | EvStart _ _ | EvVersion _ _ => true
  | EvKill _ _ _ | EvSleep => false
  end.




(** ** Further readings of a trace and of an error *)

(** Whether one of the next [c] queries from the [k]-th on answers. *)
Fixpoint answers (w : World) (k c : nat) : bool :=
  match c with
  | O => false
  | S c' =>
      match devtool_Version w k with
      | None => true
      | Some _ => answers w (S k) c'
      end
  end.

(** A trace read from left to right by a checker with a state: [None] as
    soon as one event is refused. *)
Fixpoint scan {T : Type} (step : T -> event -> option T) (s : T)
         (l : list event) : option T :=
  match l with
  | [] => Some s
  | e :: l' =>
      match step s e with
      | Some s' => scan step s' l'
      | None => None
      end
  end.

(** *** Failures that end a run *)

(** A failed command construction, a failed start, a kill that failed for
    another reason than no such process. *)
Definition is_fatal (e : event) : bool :=
  match e with
  | EvCommand _ _ (Some _) => true
  | EvStart _ (inl _) => true
  | EvKill _ _ r => negb (kill_ok r)
  | EvCommand _ _ None | EvStart _ (inr _) | EvSleep | EvVersion _ _ => false
  end.

(** No event follows a fatal one. *)
Fixpoint fatal_last (l : list event) : bool :=
  match l with
  | [] => true
  | e :: l' =>
      if is_fatal e
      then match l' with [] => true | _ :: _ => false end
      else fatal_last l'
  end.

(** An outcome that is an error goes with a trace whose last event, and no
    other, is fatal; any other outcome goes with a trace without a fatal
    event. *)
Definition stopped (o : outcome (option error)) (l : list event) : Prop :=
  match o with
  | Returned (Some _) =>
      exists t e,
        l = t ++ [e] /\ existsb is_fatal t = false /\ is_fatal e = true
  | Returned None | OutOfDepth => existsb is_fatal l = false
  end.

(** *** The port when a run ends *)

(** With nil a process is live and the last event is a query that
    answered; with an error no process is live, or the kill of the stale one
    failed; a run that is cut off is cut off with a process live. *)
Definition port_after (s0 : slot) (o : outcome (option error)) (st : State)
  : Prop :=
  match o with
  | Returned None =>
      exists pid t,
        lifecycle s0 (trace st) = Some (Live pid) /\
        trace st = t ++ [EvVersion endpoint None]
  | Returned (Some _) =>
      lifecycle s0 (trace st) = Some Free \/
      lifecycle s0 (trace st) = Some Stuck
  | OutOfDepth => exists pid, lifecycle s0 (trace st) = Some (Live pid)
  end.

(** *** Probes and kills of one process

    The process under watch has failed a number of probes so far
    ([Waiting n]), has answered ([Answered]), or there is none ([Idle]).  A
    query is allowed while fewer than 20 have failed and none has answered;
    a kill is allowed only after 20 failures. *)
Inductive watch : Type :=
| Idle
| Waiting (failed : nat)
| Answered.

Definition watch_step (s : watch) (e : event) : option watch :=
  match e with
  | EvStart _ (inr _) => Some (Waiting 0)
  | EvStart _ (inl _) => Some Idle
  | EvVersion _ r =>
      match s with
      | Waiting n =>
          if (n <? 20)%nat
          then Some (match r with Some _ => Waiting (S n) | None => Answered end)
          else None
      | Idle | Answered => None
      end
  | EvKill _ _ _ =>
      match s with
      | Waiting n => if (n =? 20)%nat then Some Idle else None
      | Idle | Answered => None
      end
  | EvCommand _ _ _ | EvSleep => Some s
  end.

(** *** The pause before a query

    The state is whether the last event was a pause; a query is allowed only
    right after one. *)
Definition pause_step (slept : bool) (e : event) : option bool :=
  match e with
  | EvSleep => Some true
  | EvVersion _ _ => if slept then Some false else None
  | EvCommand _ _ _ | EvStart _ _ | EvKill _ _ _ => Some false
  end.

(** *** The error of a failure

    The error a failed event hands to its caller: a command that could not
    be built, wrapped by [cmd]; a start that failed, as it is; a kill that
    failed for another reason than no such process, wrapped by [kill]. *)
Definition failure_error (e : event) : option error :=
  match e with
  | EvCommand _ _ (Some msg) => Some (XError "chrome.cmd" (External msg))
  | EvStart _ (inl msg) => Some (External msg)
  | EvKill _ _ (Some msg) =>
      if strings_Contains msg "no such process" then None
      else Some (XError "chrome.kill" (External msg))
  | EvCommand _ _ None | EvStart _ (inr _) | EvKill _ _ None
  | EvSleep | EvVersion _ _ => None
  end.

(** [n] wrappers of the operation [op] around [e]. *)
Fixpoint wrap_n (n : nat) (op : string) (e : error) : error :=
  match n with
  | O => e
  | S n' => XError op (wrap_n n' op e)
  end.

(** A query that answered. *)
Definition is_answer (e : event) : bool :=
  match e with EvVersion _ None => true | _ => false end.

(** *** Worlds used as examples *)

(** Every launch succeeds, every kill is delivered, no query ever
    answers. *)
Definition never_viable : World :=
  {| xexec_Command := fun _ => None;
     Cmd_Start := fun n => inr (Z.of_nat (1000 + n));
     syscall_Kill := fun _ => None;
     devtool_Version := fun _ => Some "connection refused" |}.

(** Launches succeed, queries are refused, and the kernel denies the
    kill. *)
Definition kill_denied : World :=
  {| xexec_Command := fun _ => None;
     Cmd_Start := fun n => inr (Z.of_nat (1000 + n));
     syscall_Kill := fun _ => Some "operation not permitted";
     devtool_Version := fun _ => Some "connection refused" |}.


(** The first process never answers and is already gone when killed; the
    second answers its first query. *)
Definition second_is_viable : World :=
  {| xexec_Command := fun _ => None;
     Cmd_Start := fun n => inr (Z.of_nat (1000 + n));
     syscall_Kill := fun _ => Some "no such process";
     devtool_Version :=
       fun n => if (n <? 20)%nat then Some "connection refused" else None |}.

(** The first two queries are refused, the third answers. *)
Definition third_answers : World :=
  {| xexec_Command := fun _ => None;
     Cmd_Start := fun n => inr (Z.of_nat (1000 + n));
     syscall_Kill := fun _ => None;
     devtool_Version :=
       fun n => if (n <? 2)%nat then Some "connection refused" else None |}.

(** ** Go values: facts *)

Lemma wrap_int_small (x : Z) :
  (int_min <= x <= int_max)%Z -> wrap_int x = x.
Proof.
  unfold int_min, int_max, wrap_int. intros H.
  rewrite Z.mod_small; lia.
Qed.

Lemma neg_int_opp (x : Z) :
  (int_min < x <= int_max)%Z -> neg_int x = (- x)%Z.
Proof.
  unfold neg_int. intros H. apply wrap_int_small.
  unfold int_min, int_max in *. lia.
Qed.

Example Contains_ESRCH :
  strings_Contains "no such process" "no such process" = true.
Proof. reflexivity. Qed.

Example Contains_EPERM :
  strings_Contains "operation not permitted" "no such process" = false.
Proof. reflexivity. Qed.

(** ** Command construction *)

Lemma cmd_trace (w : World) (b : bool) (st : State) :
  trace (snd (cmd w b st)) =
  trace st ++ [EvCommand binary (cmd_args b) (xexec_Command w (ncommand st))].
Proof.
  unfold cmd, bind, call_Command, ret.
  destruct (xexec_Command w (ncommand st)); reflexivity.
Qed.

Lemma cmd_result (w : World) (b : bool) (st : State) :
  fst (cmd w b st) =
  match xexec_Command w (ncommand st) with
  | Some msg => inr (XError "chrome.cmd" (External msg))
  | None => inl {| Path := binary; Args := cmd_args b;
                   SysProcAttr_ := Some {| Setpgid := true |} |}
  end.
Proof.
  unfold cmd, bind, call_Command, ret.
  destruct (xexec_Command w (ncommand st)); reflexivity.
Qed.

(** C7. Whatever the certificate-tolerance input is, the argument list built
    by [cmd] holds the flag --ignore-certificate-errors when tolerance is
    requested and does not hold it otherwise; this is the list handed to
    [xexec.Command] and the list of the command returned. *)
Theorem cmd_certificate_flag (ignoreCertificateErrors : bool) :
  (In "--ignore-certificate-errors" (cmd_args ignoreCertificateErrors)
   <-> ignoreCertificateErrors = true) /\
  (forall (w : World) (st : State),
      trace (snd (cmd w ignoreCertificateErrors st)) =
      trace st ++ [EvCommand binary (cmd_args ignoreCertificateErrors)
                             (xexec_Command w (ncommand st))] /\
      (forall c, fst (cmd w ignoreCertificateErrors st) = inl c ->
                 Args c = cmd_args ignoreCertificateErrors)).
Proof.
  split.
  - destruct ignoreCertificateErrors; cbn.
    + split; [reflexivity | intros _]. do 16 right. left. reflexivity.
    + split; [| discriminate].
      intros H.
      repeat (destruct H as [H | H]; [discriminate H |]). contradiction.
  - intros w st. split; [apply cmd_trace |].
    intros c. rewrite cmd_result.
    destruct (xexec_Command w (ncommand st)); [discriminate |].
    intros H. injection H as <-. reflexivity.
Qed.

(** C10. Command construction is a function of the certificate-tolerance
    input alone: the binary is chromium, the first sixteen arguments are the
    sixteen fixed flags in their fixed order, and the only argument that can
    follow them is --ignore-certificate-errors, last and alone, exactly when
    tolerance is requested.  Neither the world nor the state of the run
    changes the binary or the arguments handed over. *)
Theorem cmd_fixed_arguments (ignoreCertificateErrors : bool) :
  binary = "chromium" /\
  List.length contract_flags = 16 /\
  cmd_args ignoreCertificateErrors =
    contract_flags ++
    (if ignoreCertificateErrors then ["--ignore-certificate-errors"] else []) /\
  (forall (w : World) (st : State),
      exists r,
        trace (snd (cmd w ignoreCertificateErrors st)) =
        trace st ++ [EvCommand "chromium"
                       (contract_flags ++
                        (if ignoreCertificateErrors
                         then ["--ignore-certificate-errors"] else [])) r]) /\
  (forall (w1 w2 : World) (st1 st2 : State) (c1 c2 : Cmd),
      fst (cmd w1 ignoreCertificateErrors st1) = inl c1 ->
      fst (cmd w2 ignoreCertificateErrors st2) = inl c2 ->
      c1 = c2).
Proof.
  split; [reflexivity |].
  split; [reflexivity |].
  split; [destruct ignoreCertificateErrors; reflexivity |].
  split.
  - intros w st. exists (xexec_Command w (ncommand st)).
    rewrite cmd_trace. destruct ignoreCertificateErrors; reflexivity.
  - intros w1 w2 st1 st2 c1 c2. rewrite !cmd_result.
    destruct (xexec_Command w1 (ncommand st1)); [discriminate |].
    destruct (xexec_Command w2 (ncommand st2)); [discriminate |].
    congruence.
Qed.

(** ** Termination of the process group *)

Lemma kill_unfold (w : World) (proc : Process) (st : State) :
  kill w proc st =
  (match syscall_Kill w (nkill st) with
   | None => None
   | Some msg =>
       if strings_Contains msg "no such process" then None
       else Some (XError "chrome.kill" (External msg))
   end,
   {| ncommand := ncommand st; nstart := nstart st;
      nkill := S (nkill st); nversion := nversion st;
      trace := trace st ++ [EvKill (neg_int (Pid proc)) SIGKILL
                                   (syscall_Kill w (nkill st))] |}).
Proof.
  unfold kill, bind, call_Kill, ret.
  destruct (syscall_Kill w (nkill st)) as [msg |]; [| reflexivity].
  destruct (strings_Contains msg "no such process"); reflexivity.
Qed.

(** C4. [kill] returns nil when the signal is delivered and when delivery
    fails with no such process; any other delivery failure comes back to the
    caller as an error that carries it. *)
Theorem kill_idempotent (w : World) (proc : Process) (st : State) :
  (syscall_Kill w (nkill st) = None -> fst (kill w proc st) = None) /\
  (syscall_Kill w (nkill st) = Some "no such process" ->
   fst (kill w proc st) = None) /\
  (forall msg,
      syscall_Kill w (nkill st) = Some msg ->
      strings_Contains msg "no such process" = true ->
      fst (kill w proc st) = None) /\
  (forall msg,
      syscall_Kill w (nkill st) = Some msg ->
      strings_Contains msg "no such process" = false ->
      fst (kill w proc st) = Some (XError "chrome.kill" (External msg))).
Proof.
  rewrite kill_unfold. cbn [fst].
  repeat split.
  - intros ->. reflexivity.
  - intros ->. reflexivity.
  - intros msg -> ->. reflexivity.
  - intros msg -> ->. reflexivity.
Qed.

(** C6. [kill] sends one signal, SIGKILL, and sends it to the negation of
    the pid of the process it is given, that is to its process group. *)
Theorem kill_signals_group (w : World) (proc : Process) (st : State) :
  (int_min < Pid proc <= int_max)%Z ->
  trace (snd (kill w proc st)) =
  trace st ++ [EvKill (- Pid proc) SIGKILL (syscall_Kill w (nkill st))].
Proof.
  intros H. rewrite kill_unfold. cbn [snd trace].
  rewrite (neg_int_opp _ H). reflexivity.
Qed.

(** ** The viability loop *)

Lemma skipn_length_app {A : Type} (l1 l2 : list A) :
  skipn (List.length l1) (l1 ++ l2) = l2.
Proof. induction l1 as [| x l1 IH]; [reflexivity | exact IH]. Qed.

Section Attempts.

Variable w : World.

Lemma attempts_le (c k : nat) : attempts w k c <= c.
Proof.
  revert k. induction c as [| c IH]; intros k; cbn; [lia |].
  destruct (devtool_Version w k); [specialize (IH (S k)) |]; lia.
Qed.

Lemma attempts_pos (c k : nat) : 0 < c -> 1 <= attempts w k c.
Proof.
  destruct c as [| c]; [lia | intros _; cbn].
  destruct (devtool_Version w k); lia.
Qed.

Lemma attempts_failed_before (c k j : nat) :
  j + 1 < attempts w k c -> devtool_Version w (k + j) <> None.
Proof.
  revert k j. induction c as [| c IH]; intros k j; cbn; [lia |].
  destruct (devtool_Version w k) as [msg |] eqn:E; [| lia].
  intros H. destruct j as [| j].
  - rewrite Nat.add_0_r, E. discriminate.
  - replace (k + S j) with (S k + j) by lia. apply IH. lia.
Qed.

Lemma attempts_early (c k : nat) :
  0 < attempts w k c < c ->
  devtool_Version w (k + (attempts w k c - 1)) = None.
Proof.
  revert k. induction c as [| c IH]; intros k; cbn; [lia |].
  destruct (devtool_Version w k) as [msg |] eqn:E.
  - intros H. specialize (IH (S k)).
    pose proof (attempts_pos c (S k)) as Hp.
    replace (k + (S (attempts w (S k) c) - 1))
      with (S k + (attempts w (S k) c - 1)) by lia.
    apply IH. lia.
  - intros _. cbn. rewrite Nat.add_0_r. exact E.
Qed.

Lemma probes_of_probe_events (a k : nat) :
  probes_of (probe_events w k a) =
  map (fun j => devtool_Version w (k + j)) (seq 0 a).
Proof.
  revert k. induction a as [| a IH]; intros k; [reflexivity |].
  cbn [probe_events probes_of seq map]. rewrite Nat.add_0_r. f_equal.
  rewrite IH, <- seq_shift, map_map.
  apply map_ext. intros j. f_equal. lia.
Qed.

Lemma IsViable_loop_done (n : nat) (i : Z) (err : option error) (st : State) :
  IsViable_loop w n i true err st = ((true, err), st).
Proof.
  destruct n; cbn [IsViable_loop]; [reflexivity |].
  rewrite andb_false_r. reflexivity.
Qed.

(** The loop from a state in which no attempt has succeeded yet. *)
Lemma IsViable_loop_spec (n : nat) :
  forall (i : Z) (err : option error) (st : State),
    (i + Z.of_nat n <= maxViabilityTests)%Z ->
    IsViable_loop w n i false err st =
    (match attempts w (nversion st) n with
     | O => (false, err)
     | S a' => viable_result (devtool_Version w (nversion st + a'))
     end,
     {| ncommand := ncommand st; nstart := nstart st; nkill := nkill st;
        nversion := nversion st + attempts w (nversion st) n;
        trace := trace st ++
                 probe_events w (nversion st) (attempts w (nversion st) n) |}).
Proof.
  induction n as [| n IH]; intros i err st Hi.
  - cbn. destruct st; cbn. rewrite Nat.add_0_r, app_nil_r. reflexivity.
  - cbn [IsViable_loop attempts].
    replace (i <? maxViabilityTests)%Z with true
      by (symmetry; apply Z.ltb_lt; lia).
    cbn [andb negb].
    unfold bind at 1, warmup, call_Sleep.
    unfold bind at 1, viable at 1, bind at 1, call_Version, ret.
    cbn [nversion trace ncommand nstart nkill].
    destruct (devtool_Version w (nversion st)) as [msg |] eqn:E;
      cbn [fst snd].
    + rewrite IH by lia. cbn [nversion trace ncommand nstart nkill].
      f_equal.
      * destruct (attempts w (S (nversion st)) n) as [| a'].
        -- rewrite Nat.add_0_r, E. reflexivity.
        -- replace (nversion st + S a') with (S (nversion st) + a') by lia.
           reflexivity.
      * f_equal; [lia |].
        rewrite <- !app_assoc. cbn [probe_events app]. rewrite E.
        reflexivity.
    + rewrite IsViable_loop_done. cbn [viable_result].
      rewrite Nat.add_0_r, E. cbn [viable_result probe_events].
      f_equal. f_equal; [lia |]. rewrite <- !app_assoc, E. reflexivity.
Qed.

Lemma IsViable_spec (st : State) :
  IsViable w st =
  (viable_result
     (devtool_Version w (nversion st + (attempts w (nversion st) 20 - 1))),
   {| ncommand := ncommand st; nstart := nstart st; nkill := nkill st;
      nversion := nversion st + attempts w (nversion st) 20;
      trace := trace st ++
               probe_events w (nversion st) (attempts w (nversion st) 20) |}).
Proof.
  unfold IsViable. rewrite IsViable_loop_spec by (unfold maxViabilityTests; lia).
  change (Z.to_nat maxViabilityTests) with 20.
  pose proof (attempts_pos 20 (nversion st)) as Hp.
  destruct (attempts w (nversion st) 20) as [| a']; [lia |].
  replace (S a' - 1) with a' by lia. reflexivity.
Qed.

(** The bound on the iterations is not felt: the loop condition stops the
    loop by itself. *)
Lemma IsViable_loop_extra (k m : nat) :
  forall (i : Z) (r : bool) (e : option error) (st : State),
    (i + Z.of_nat k = maxViabilityTests)%Z ->
    IsViable_loop w (k + m) i r e st = IsViable_loop w k i r e st.
Proof.
  induction k as [| k IHk]; intros i r e st Hi.
  - cbn [Nat.add]. destruct m; cbn [IsViable_loop]; [reflexivity |].
    replace (i <? maxViabilityTests)%Z with false
      by (symmetry; apply Z.ltb_ge; lia).
    reflexivity.
  - cbn [Nat.add IsViable_loop].
    destruct ((i <? maxViabilityTests)%Z && negb r); [| reflexivity].
    unfold bind. destruct (warmup st) as [u st1].
    destruct (viable w st1) as [v st2].
    apply IHk. lia.
Qed.

Lemma IsViable_loop_enough (n : nat) (st : State) :
  20 <= n ->
  IsViable_loop w n 0%Z false None st = IsViable w st.
Proof.
  intros Hn. unfold IsViable. change (Z.to_nat maxViabilityTests) with 20.
  replace n with (20 + (n - 20)) by lia.
  apply IsViable_loop_extra. reflexivity.
Qed.

End Attempts.

(** C1. Whatever the outcomes of the queries are, one call of [IsViable]
    makes at least 1 and at most 20 probe attempts; they take the outcomes
    of the world in order; every attempt but the last one failed, and when
    fewer than 20 were made the last one reported viable. *)
Theorem IsViable_bounded_attempts (w : World) (st : State) :
  let l := skipn (List.length (trace st)) (trace (snd (IsViable w st))) in
  let rs := probes_of l in
  1 <= List.length rs <= 20 /\
  rs = map (fun j => devtool_Version w (nversion st + j))
           (seq 0 (List.length rs)) /\
  (forall j, j + 1 < List.length rs -> nth j rs None <> None) /\
  (List.length rs < 20 -> last rs (Some "") = None).
Proof.
  cbv zeta. rewrite IsViable_spec. cbn [snd trace].
  rewrite skipn_length_app, probes_of_probe_events, length_map, length_seq.
  pose proof (attempts_pos w 20 (nversion st)) as Hpos.
  pose proof (attempts_le w 20 (nversion st)) as Hle.
  set (a := attempts w (nversion st) 20) in *.
  split; [lia |]. split; [reflexivity |]. split.
  - intros j Hj.
    rewrite (nth_indep _ None (devtool_Version w (nversion st + 0)))
      by (rewrite length_map, length_seq; lia).
    rewrite (map_nth (fun j => devtool_Version w (nversion st + j))).
    rewrite seq_nth by lia.
    apply (attempts_failed_before w 20). exact Hj.
  - intros Hlt.
    pose proof (attempts_early w 20 (nversion st)) as He. fold a in He.
    destruct a as [| a']; [lia |].
    rewrite seq_S, map_app. cbn [map]. rewrite last_last.
    replace (S a' - 1) with a' in He by lia. apply He. lia.
Qed.

(** C9. [IsViable] returns the result of the last attempt it made: the
    flag and the error are those [viable] produced for the outcome of the
    final query, whatever the earlier attempts produced. *)
Theorem IsViable_returns_last (w : World) (st : State) :
  let l := skipn (List.length (trace st)) (trace (snd (IsViable w st))) in
  exists rs r,
    probes_of l = rs ++ [r] /\
    r = devtool_Version w (nversion st + List.length rs) /\
    fst (IsViable w st) =
      match r with
      | None => (true, None)
      | Some msg => (false, Some (External msg))
      end /\
    fst (IsViable w st) =
      fst (viable w {| ncommand := ncommand st; nstart := nstart st;
                       nkill := nkill st;
                       nversion := nversion st + List.length rs;
                       trace := trace st |}).
Proof.
  cbv zeta. rewrite IsViable_spec. cbn [fst snd trace].
  rewrite skipn_length_app, probes_of_probe_events.
  pose proof (attempts_pos w 20 (nversion st)) as Hpos.
  destruct (attempts w (nversion st) 20) as [| a']; [lia |].
  exists (map (fun j => devtool_Version w (nversion st + j)) (seq 0 a')).
  exists (devtool_Version w (nversion st + a')).
  rewrite seq_S, map_app, length_map, length_seq.
  replace (S a' - 1) with a' by lia.
  split; [reflexivity |]. split; [reflexivity |].
  unfold viable, bind, call_Version, ret. cbn [nversion].
  destruct (devtool_Version w (nversion st + a')); split; reflexivity.
Qed.

(** ** The supervisor *)

Section Supervisor.

Variable w : World.
Variable b : bool.

Lemma cmd_unfold (st : State) :
  cmd w b st =
  (match xexec_Command w (ncommand st) with
   | Some msg => inr (XError "chrome.cmd" (External msg))
   | None => inl (chromium b)
   end, after_Command w b st).
Proof.
  unfold cmd, bind, call_Command, ret, after_Command, chromium.
  destruct (xexec_Command w (ncommand st)); reflexivity.
Qed.

Lemma call_Start_unfold (c : Cmd) (st : State) :
  call_Start w c st =
  (match Cmd_Start w (nstart st) with
   | inl msg => inr (External msg)
   | inr pid => inl {| Pid := pid |}
   end, after_Start w c st).
Proof.
  unfold call_Start, after_Start.
  destruct (Cmd_Start w (nstart st)); reflexivity.
Qed.

Lemma kill_unfold' (proc : Process) (st : State) :
  kill w proc st =
  (if kill_ok (syscall_Kill w (nkill st)) then None
   else match syscall_Kill w (nkill st) with
        | Some msg => Some (XError "chrome.kill" (External msg))
        | None => None
        end,
   after_kill w proc st).
Proof.
  rewrite kill_unfold. unfold after_kill, kill_ok.
  destruct (syscall_Kill w (nkill st)) as [msg |]; [| reflexivity].
  destruct (strings_Contains msg "no such process"); reflexivity.
Qed.

Lemma IsViable_unfold (st : State) :
  IsViable w st =
  (viable_result
     (devtool_Version w (nversion st + (attempts w (nversion st) 20 - 1))),
   after_IsViable w st).
Proof. apply IsViable_spec. Qed.

Lemma launch_and_probe_unfold (st : State) :
  launch_and_probe w b st =
  match xexec_Command w (ncommand st) with
  | Some msg =>
      (Failed (XError "chrome.cmd" (External msg)), after_Command w b st)
  | None =>
      let st1 := after_Command w b st in
      match Cmd_Start w (nstart st1) with
      | inl msg => (Failed (External msg), after_Start w (chromium b) st1)
      | inr pid =>
          let st2 := after_Start w (chromium b) st1 in
          (if fst (fst (IsViable w st2)) then Viable
           else NotViable {| Pid := pid |},
           after_IsViable w st2)
      end
  end.
Proof.
  unfold launch_and_probe, bind at 1. rewrite cmd_unfold.
  destruct (xexec_Command w (ncommand st)) as [msg |]; [reflexivity |].
  unfold bind at 1. rewrite call_Start_unfold. cbv zeta.
  destruct (Cmd_Start w (nstart (after_Command w b st))) as [msg | pid];
    [reflexivity |].
  unfold bind. rewrite IsViable_unfold. cbn [fst].
  destruct (fst (viable_result _)); reflexivity.
Qed.

Lemma Start_unfold (depth : nat) (st : State) :
  Start w depth b st =
  let (r, st1) := launch_and_probe w b st in
  match r with
  | Failed e => (Returned (Some (XError "chrome.Start" e)), st1)
  | Viable => (Returned None, st1)
  | NotViable p =>
      let (o, st2) := restart w depth p b st1 in
      (wrap "chrome.Start" o, st2)
  end.
Proof.
  unfold Start, launch_and_probe, bind, ret.
  destruct (cmd w b st) as [[c | e] st0]; [| reflexivity].
  destruct (call_Start w c st0) as [[p | e] st1]; [| reflexivity].
  destruct (IsViable w st1) as [[v err] st2]. cbn [fst].
  destruct v; cbn [negb]; [reflexivity |].
  destruct (restart w depth p b st2); reflexivity.
Qed.

Lemma restart_unfold (depth : nat) (proc : Process) (st : State) :
  restart w (S depth) proc b st =
  let (k, st0) := kill w proc st in
  match k with
  | Some e => (Returned (Some (XError "chrome.restart" e)), st0)
  | None =>
      let (r, st1) := launch_and_probe w b st0 in
      match r with
      | Failed e => (Returned (Some (XError "chrome.restart" e)), st1)
      | Viable => (Returned None, st1)
      | NotViable p =>
          let (o, st2) := restart w depth p b st1 in
          (wrap "chrome.restart" o, st2)
      end
  end.
Proof.
  cbn [restart]. unfold launch_and_probe, bind, ret.
  destruct (kill w proc st) as [[e |] st0]; [reflexivity |].
  destruct (cmd w b st0) as [[c | e] st1]; [| reflexivity].
  destruct (call_Start w c st1) as [[p | e] st2]; [| reflexivity].
  destruct (IsViable w st2) as [[v err] st3]. cbn [fst].
  destruct v; cbn [negb]; [reflexivity |].
  destruct (restart w depth p b st3); reflexivity.
Qed.

End Supervisor.

(** ** Order of kills and launches *)

Lemma lifecycle_app (l1 l2 : list event) (s : slot) :
  lifecycle s (l1 ++ l2) =
  match lifecycle s l1 with
  | Some s' => lifecycle s' l2
  | None => None
  end.
Proof.
  revert s. induction l1 as [| e l1 IH]; intros s; cbn; [reflexivity |].
  destruct (lifecycle_step s e); [apply IH | reflexivity].
Qed.

Lemma lifecycle_probe_events (w : World) (a k : nat) (s : slot) :
  lifecycle s (probe_events w k a) = Some s.
Proof.
  revert k. induction a as [| a IH]; intros k; cbn; [reflexivity | apply IH].
Qed.

Lemma settled_wrap (op : string) (s0 : slot) (o : outcome (option error))
      (st : State) :
  settled s0 o st -> settled s0 (wrap op o) st.
Proof.
  unfold settled. destruct (lifecycle s0 (trace st)) as [[| pid |] |]; auto.
  intros (msg & e & t & pid & -> & Hroot & Hc & Ht).
  exists msg, (XError op e), t, pid. cbn. auto.
Qed.

Section Ordering.

Variable w : World.
Variable b : bool.

(** A launch from a free port leaves the port free when it fails and held
    by the started process otherwise. *)
Lemma launch_lifecycle (s0 : slot) (st st1 : State) (r : launched) :
  lifecycle s0 (trace st) = Some Free ->
  launch_and_probe w b st = (r, st1) ->
  match r with
  | Failed _ => lifecycle s0 (trace st1) = Some Free
  | Viable => exists pid, lifecycle s0 (trace st1) = Some (Live pid)
  | NotViable p => lifecycle s0 (trace st1) = Some (Live (Pid p))
  end.
Proof.
  intros H0. rewrite launch_and_probe_unfold.
  destruct (xexec_Command w (ncommand st)) as [msg |].
  - intros [= <- <-]. cbn [after_Command trace].
    rewrite lifecycle_app, H0. reflexivity.
  - cbv zeta. cbn [after_Command nstart].
    destruct (Cmd_Start w (nstart st)) as [msg | pid] eqn:Es.
    + intros [= <- <-]. cbn [after_Start after_Command trace nstart].
      rewrite !lifecycle_app, H0, Es. reflexivity.
    + intros [= <- <-].
      assert (Hl : lifecycle s0
                     (trace (after_IsViable w
                        (after_Start w (chromium b) (after_Command w b st))))
                   = Some (Live pid)).
      { cbn [after_IsViable after_Start after_Command trace nstart nversion].
        rewrite !lifecycle_app, H0, Es. cbn.
        apply lifecycle_probe_events. }
      destruct (fst (fst (IsViable w _))); [exists pid |]; exact Hl.
Qed.

Lemma restart_settled (depth : nat) :
  forall (proc : Process) (st st' : State) (s0 : slot)
         (o : outcome (option error)),
    lifecycle s0 (trace st) = Some (Live (Pid proc)) ->
    restart w depth proc b st = (o, st') ->
    settled s0 o st'.
Proof.
  induction depth as [| depth IH]; intros proc st st' s0 o Hlive.
  - cbn. unfold ret. intros [= <- <-]. unfold settled. rewrite Hlive. exact I.
  - rewrite restart_unfold, kill_unfold'.
    assert (Hk : lifecycle s0 (trace (after_kill w proc st)) =
                 Some (if kill_ok (syscall_Kill w (nkill st))
                       then Free else Stuck)).
    { cbn [after_kill trace]. rewrite lifecycle_app, Hlive. cbn.
      rewrite Z.eqb_refl. reflexivity. }
    destruct (kill_ok (syscall_Kill w (nkill st))) eqn:Hok.
    + destruct (launch_and_probe w b (after_kill w proc st)) as [r st1] eqn:El.
      pose proof (launch_lifecycle s0 _ _ _ Hk El) as Hl.
      destruct r as [e | | p].
      * intros [= <- <-]. unfold settled. rewrite Hl. exact I.
      * intros [= <- <-]. unfold settled. destruct Hl as [pid ->]. exact I.
      * destruct (restart w depth p b st1) as [o2 st2] eqn:Er.
        intros [= <- <-]. apply settled_wrap. exact (IH _ _ _ _ _ Hl Er).
    + destruct (syscall_Kill w (nkill st)) as [msg |] eqn:Em;
        [| discriminate Hok].
      intros [= <- <-]. unfold settled. rewrite Hk.
      exists msg, (XError "chrome.restart" (XError "chrome.kill" (External msg))),
        (trace st), (neg_int (Pid proc)).
      cbn [after_kill trace root_cause]. rewrite Em. auto.
Qed.

Lemma Start_settled (depth : nat) (st st' : State) (s0 : slot)
      (o : outcome (option error)) :
  lifecycle s0 (trace st) = Some Free ->
  Start w depth b st = (o, st') ->
  settled s0 o st'.
Proof.
  intros H0. rewrite Start_unfold.
  destruct (launch_and_probe w b st) as [r st1] eqn:El.
  pose proof (launch_lifecycle s0 _ _ _ H0 El) as Hl.
  destruct r as [e | | p].
  - intros [= <- <-]. unfold settled. rewrite Hl. exact I.
  - intros [= <- <-]. unfold settled. destruct Hl as [pid ->]. exact I.
  - destruct (restart w depth p b st1) as [o2 st2] eqn:Er.
    intros [= <- <-]. apply settled_wrap.
    exact (restart_settled _ _ _ _ _ _ Hl Er).
Qed.

Lemma launch_extends (st st1 : State) (r : launched) :
  launch_and_probe w b st = (r, st1) ->
  exists l, trace st1 = trace st ++ l.
Proof.
  rewrite launch_and_probe_unfold.
  destruct (xexec_Command w (ncommand st)).
  - intros [= <- <-]. eexists. reflexivity.
  - cbv zeta. destruct (Cmd_Start w _).
    + intros [= <- <-]. eexists. cbn. rewrite <- !app_assoc. reflexivity.
    + intros [= <- <-]. eexists. cbn. rewrite <- !app_assoc. reflexivity.
Qed.

Lemma restart_extends (depth : nat) :
  forall (proc : Process) (st st' : State) (o : outcome (option error)),
    restart w depth proc b st = (o, st') ->
    exists l, trace st' = trace st ++ l.
Proof.
  induction depth as [| depth IH]; intros proc st st' o.
  - cbn. unfold ret. intros [= <- <-]. exists []. symmetry. apply app_nil_r.
  - rewrite restart_unfold, kill_unfold'.
    destruct (kill_ok (syscall_Kill w (nkill st))) eqn:Hok.
    + destruct (launch_and_probe w b (after_kill w proc st)) as [r st1] eqn:El.
      destruct (launch_extends _ _ _ El) as [l1 H1].
      cbn [after_kill trace] in H1.
      destruct r as [e | | p].
      * intros [= <- <-]. rewrite H1, <- app_assoc. eexists. reflexivity.
      * intros [= <- <-]. rewrite H1, <- app_assoc. eexists. reflexivity.
      * destruct (restart w depth p b st1) as [o2 st2] eqn:Er.
        destruct (IH _ _ _ _ Er) as [l2 H2].
        intros [= <- <-]. rewrite H2, H1, <- !app_assoc.
        eexists. reflexivity.
    + destruct (syscall_Kill w (nkill st)); [| discriminate Hok].
      intros [= <- <-]. eexists. reflexivity.
Qed.

(** A call of [restart] begins with the kill of the process it is given. *)
Lemma restart_kills_first (depth : nat) (proc : Process) (st : State) :
  exists l,
    trace (snd (restart w (S depth) proc b st)) =
    trace st ++ EvKill (neg_int (Pid proc)) SIGKILL
                       (syscall_Kill w (nkill st)) :: l.
Proof.
  destruct (restart w (S depth) proc b st) as [o st'] eqn:E. cbn [snd].
  revert E. rewrite restart_unfold, kill_unfold'.
  destruct (kill_ok (syscall_Kill w (nkill st))) eqn:Hok.
  - destruct (launch_and_probe w b (after_kill w proc st)) as [r st1] eqn:El.
    destruct (launch_extends _ _ _ El) as [l1 H1].
    cbn [after_kill trace] in H1.
    destruct r as [e | | p].
    + intros [= <- <-]. exists l1. rewrite H1, <- app_assoc. reflexivity.
    + intros [= <- <-]. exists l1. rewrite H1, <- app_assoc. reflexivity.
    + destruct (restart w depth p b st1) as [o2 st2] eqn:Er.
      destruct (restart_extends _ _ _ _ _ Er) as [l2 H2].
      intros [= <- <-]. exists (l1 ++ l2).
      rewrite H2, H1, <- !app_assoc. reflexivity.
  - destruct (syscall_Kill w (nkill st)) eqn:Em; [| discriminate Hok].
    intros [= <- <-]. exists []. cbn [after_kill trace]. rewrite Em.
    reflexivity.
Qed.

End Ordering.

(** C5. Every call of [restart] begins with the kill of the process it was
    given, before anything else happens; when that kill fails for a reason
    other than no such process, the call ends there, with the kill as its
    only event and the kill's error wrapped as its result.  Over a whole run
    of [Start] the trace respects the ownership of the port: a process is
    started only when none is live, that is after the kill of the previous
    one was delivered or found it gone; each kill aims at the group of the
    live process; after a failed kill nothing is started, the failed kill is
    the last event, and [Start] returns an error whose root cause is that
    failure. *)
Theorem restart_kills_before_launch (w : World) (b : bool) :
  (forall depth proc st,
      exists l,
        trace (snd (restart w (S depth) proc b st)) =
        trace st ++ EvKill (neg_int (Pid proc)) SIGKILL
                           (syscall_Kill w (nkill st)) :: l) /\
  (forall depth proc st msg,
      syscall_Kill w (nkill st) = Some msg ->
      strings_Contains msg "no such process" = false ->
      restart w (S depth) proc b st =
      (Returned (Some (XError "chrome.restart"
                         (XError "chrome.kill" (External msg)))),
       after_kill w proc st)) /\
  (forall depth,
      settled Free (fst (Start w depth b initial))
                   (snd (Start w depth b initial))).
Proof.
  split; [| split].
  - intros depth proc st. apply restart_kills_first.
  - intros depth proc st msg Hm Hc.
    rewrite restart_unfold, kill_unfold'. unfold kill_ok.
    rewrite Hm, Hc. reflexivity.
  - intros depth.
    apply (Start_settled w b depth initial _ Free); [reflexivity |].
    destruct (Start w depth b initial); reflexivity.
Qed.

(** ** Restarts without end *)

Lemma count_app (p : event -> bool) (l1 l2 : list event) :
  count p (l1 ++ l2) = count p l1 + count p l2.
Proof. unfold count. rewrite filter_app, length_app. reflexivity. Qed.

Lemma count_probe_events (w : World) (a k : nat) :
  count is_kill (probe_events w k a) = 0 /\
  count is_launch (probe_events w k a) = 0 /\
  count is_probe (probe_events w k a) = a.
Proof.
  revert k. induction a as [| a IH]; intros k; [repeat split |].
  destruct (IH (S k)) as (Hk & Hl & Hp). unfold count in *. cbn.
  rewrite Hk, Hl, Hp. repeat split.
Qed.

Section Persistent.

Variable w : World.
Variable b : bool.

Hypothesis commands_succeed : forall n, xexec_Command w n = None.
Hypothesis starts_succeed : forall n, exists pid, Cmd_Start w n = inr pid.
Hypothesis kills_succeed : forall n, kill_ok (syscall_Kill w n) = true.
Hypothesis probes_fail : forall n, devtool_Version w n <> None.

Lemma attempts_all_fail (c k : nat) : attempts w k c = c.
Proof.
  revert k. induction c as [| c IH]; intros k; cbn; [reflexivity |].
  destruct (devtool_Version w k) eqn:E; [rewrite IH; reflexivity |].
  exfalso. exact (probes_fail k E).
Qed.

Lemma IsViable_fails (st : State) : fst (fst (IsViable w st)) = false.
Proof.
  rewrite IsViable_unfold. cbn [fst].
  destruct (devtool_Version w _) eqn:E; [reflexivity |].
  exfalso. exact (probes_fail _ E).
Qed.

Lemma launch_persistent (st : State) :
  exists pid st1,
    launch_and_probe w b st = (NotViable {| Pid := pid |}, st1) /\
    count is_kill (trace st1) = count is_kill (trace st) /\
    count is_launch (trace st1) = count is_launch (trace st) + 1 /\
    count is_probe (trace st1) = count is_probe (trace st) + 20.
Proof.
  rewrite launch_and_probe_unfold, commands_succeed. cbv zeta.
  cbn [after_Command nstart].
  destruct (starts_succeed (nstart st)) as [pid Es].
  exists pid. eexists. split.
  - rewrite Es, IsViable_fails. reflexivity.
  - cbn [after_IsViable after_Start after_Command trace nstart nversion].
    rewrite Es, attempts_all_fail, !count_app.
    destruct (count_probe_events w 20 (nversion st)) as (-> & -> & ->).
    unfold count. cbn. repeat split; lia.
Qed.

Lemma restart_persistent (depth : nat) :
  forall (proc : Process) (st : State),
  exists st',
    restart w depth proc b st = (OutOfDepth, st') /\
    count is_kill (trace st') = count is_kill (trace st) + depth /\
    count is_launch (trace st') = count is_launch (trace st) + depth /\
    count is_probe (trace st') = count is_probe (trace st) + 20 * depth.
Proof.
  induction depth as [| depth IH]; intros proc st.
  - exists st. cbn. unfold ret. repeat split; lia.
  - rewrite restart_unfold, kill_unfold', kills_succeed.
    destruct (launch_persistent (after_kill w proc st))
      as (pid & st1 & -> & Hk & Hl & Hp).
    destruct (IH {| Pid := pid |} st1) as (st2 & -> & Hk2 & Hl2 & Hp2).
    exists st2. split; [reflexivity |].
    cbn [after_kill trace] in Hk, Hl, Hp. rewrite count_app in Hk, Hl, Hp.
    change (count is_kill [EvKill _ _ _]) with 1 in Hk.
    change (count is_launch [EvKill _ _ _]) with 0 in Hl.
    change (count is_probe [EvKill _ _ _]) with 0 in Hp.
    repeat split; lia.
Qed.

Lemma Start_persistent (depth : nat) (st : State) :
  exists st',
    Start w depth b st = (OutOfDepth, st') /\
    count is_kill (trace st') = count is_kill (trace st) + depth /\
    count is_launch (trace st') = count is_launch (trace st) + S depth /\
    count is_probe (trace st') = count is_probe (trace st) + 20 * S depth.
Proof.
  rewrite Start_unfold.
  destruct (launch_persistent st) as (pid & st1 & -> & Hk & Hl & Hp).
  destruct (restart_persistent depth {| Pid := pid |} st1)
    as (st2 & -> & Hk2 & Hl2 & Hp2).
  exists st2. split; [reflexivity |]. repeat split; lia.
Qed.

End Persistent.

(** C3. There is a world whose queries never answer, [never_viable], in
    which [Start] does not return however deep [restart] is allowed to
    recurse: a run cut off at depth [depth] has by then gone through [depth]
    kills, [depth + 1] launches and [20 * (depth + 1)] probe attempts.  So
    for every bound N a run goes through more than N launch-probe-kill
    cycles, and no restart count ends the recursion. *)
Theorem restart_unbounded (N : nat) :
  exists w : World,
    (forall n, devtool_Version w n <> None) /\
    (forall depth b,
        fst (Start w depth b initial) = OutOfDepth /\
        count is_kill (trace (snd (Start w depth b initial))) = depth /\
        count is_launch (trace (snd (Start w depth b initial))) = S depth /\
        count is_probe (trace (snd (Start w depth b initial)))
          = 20 * S depth) /\
    (forall b,
        N < count is_kill (trace (snd (Start w (S N) b initial))) /\
        N < count is_launch (trace (snd (Start w (S N) b initial)))).
Proof.
  exists never_viable.
  assert (Hrun : forall depth b, exists st',
             Start never_viable depth b initial = (OutOfDepth, st') /\
             count is_kill (trace st') = depth /\
             count is_launch (trace st') = S depth /\
             count is_probe (trace st') = 20 * S depth).
  { intros depth b.
    destruct (Start_persistent never_viable b) with (depth := depth)
                                                    (st := initial)
      as (st' & E & Hk & Hl & Hp).
    - reflexivity.
    - intros n. eexists. reflexivity.
    - reflexivity.
    - discriminate.
    - exists st'. auto. }
  split; [discriminate |]. split.
  - intros depth b. destruct (Hrun depth b) as (st' & -> & Hk & Hl & Hp).
    cbn [fst snd]. auto.
  - intros b. destruct (Hrun (S N) b) as (st' & -> & Hk & Hl & Hp).
    cbn [snd]. lia.
Qed.

(** ** What every event of a run looks like *)

Section Invariant.

Variable w : World.
Variable b : bool.
Variable P : event -> Prop.

Hypothesis P_Command : forall r, P (EvCommand binary (cmd_args b) r).
Hypothesis P_Start : forall r, P (EvStart (chromium b) r).
Hypothesis P_Kill : forall pid r, P (EvKill pid SIGKILL r).
Hypothesis P_Sleep : P EvSleep.
Hypothesis P_Version : forall r, P (EvVersion endpoint r).

Lemma probe_events_invariant (a k : nat) : Forall P (probe_events w k a).
Proof.
  revert k. induction a as [| a IH]; intros k; cbn; auto.
Qed.

Lemma launch_invariant (st st1 : State) (r : launched) :
  Forall P (trace st) ->
  launch_and_probe w b st = (r, st1) ->
  Forall P (trace st1).
Proof.
  intros H. rewrite launch_and_probe_unfold.
  destruct (xexec_Command w (ncommand st)).
  - intros [= <- <-]. cbn. apply Forall_app. auto.
  - cbv zeta. destruct (Cmd_Start w _).
    + intros [= <- <-]. cbn. rewrite !Forall_app. auto.
    + intros [= <- <-]. cbn. rewrite !Forall_app.
      auto using probe_events_invariant.
Qed.

Lemma restart_invariant (depth : nat) :
  forall (proc : Process) (st st' : State) (o : outcome (option error)),
    Forall P (trace st) ->
    restart w depth proc b st = (o, st') ->
    Forall P (trace st').
Proof.
  induction depth as [| depth IH]; intros proc st st' o H.
  - cbn. unfold ret. intros [= <- <-]. exact H.
  - rewrite restart_unfold, kill_unfold'.
    assert (Hk : Forall P (trace (after_kill w proc st)))
      by (cbn; apply Forall_app; auto).
    destruct (kill_ok (syscall_Kill w (nkill st))) eqn:Hok.
    + destruct (launch_and_probe w b (after_kill w proc st)) as [r st1] eqn:El.
      pose proof (launch_invariant _ _ _ Hk El) as Hl.
      destruct r as [e | | p]; try (intros [= <- <-]; exact Hl).
      destruct (restart w depth p b st1) as [o2 st2] eqn:Er.
      intros [= <- <-]. exact (IH _ _ _ _ Hl Er).
    + destruct (syscall_Kill w (nkill st)); [| discriminate Hok].
      intros [= <- <-]. exact Hk.
Qed.

Lemma Start_invariant (depth : nat) (st : State) :
  Forall P (trace st) ->
  Forall P (trace (snd (Start w depth b st))).
Proof.
  intros H. rewrite Start_unfold.
  destruct (launch_and_probe w b st) as [r st1] eqn:El.
  pose proof (launch_invariant _ _ _ H El) as Hl.
  destruct r as [e | | p]; try exact Hl.
  destruct (restart w depth p b st1) as [o2 st2] eqn:Er.
  exact (restart_invariant _ _ _ _ _ Hl Er).
Qed.

End Invariant.

(** C8. The port given to the launch flag --remote-debugging-port and the
    port of the endpoint the probe queries are the same, 9222, for both
    values of the certificate-tolerance input; and in every run of [Start]
    each command built, each command started and each endpoint queried names
    that one port. *)
Theorem port_invariance (w : World) (b : bool) (depth : nat) :
  flag_values "--remote-debugging-port" (cmd_args b) = ["9222"] /\
  url_port endpoint = Some "9222" /\
  Forall (fun e => names_port e = true -> event_ports e = ["9222"])
         (trace (snd (Start w depth b initial))).
Proof.
  assert (Hflag : flag_values "--remote-debugging-port" (cmd_args b)
                  = ["9222"]) by (destruct b; reflexivity).
  split; [exact Hflag |]. split; [reflexivity |].
  apply Start_invariant.
  - intros r _. exact Hflag.
  - intros r _. exact Hflag.
  - intros pid r H. discriminate H.
  - intros H. discriminate H.
  - intros r _. reflexivity.
  - constructor.
Qed.

(** ** The diagnostic of the probe and the error of Start *)


Section Diagnostics.

Variables w1 w2 : World.
Variable b : bool.

Hypothesis same_commands : forall n, xexec_Command w1 n = xexec_Command w2 n.
Hypothesis same_starts : forall n, Cmd_Start w1 n = Cmd_Start w2 n.
Hypothesis same_kills : forall n, syscall_Kill w1 n = syscall_Kill w2 n.
Hypothesis same_viability :
  forall n, devtool_Version w1 n = None <-> devtool_Version w2 n = None.






End Diagnostics.

Section Origin.

Variable w : World.
Variable b : bool.





End Origin.

(** A run from the spec's scenarios: the first process never answers and
    is killed once, the second answers its first query, [Start] succeeds. *)
Example restart_on_failure_scenario :
  fst (Start second_is_viable 1 false initial) = Returned None /\
  count is_kill (trace (snd (Start second_is_viable 1 false initial))) = 1 /\
  count is_launch (trace (snd (Start second_is_viable 1 false initial))) = 2 /\
  count is_probe (trace (snd (Start second_is_viable 1 false initial))) = 21.
Proof. vm_compute. repeat split. Qed.

Lemma kill_signals_group_witness :
  trace (snd (kill never_viable {| Pid := 4242 |} initial))
    = [EvKill (-4242) SIGKILL None].
Proof.
  apply (kill_signals_group never_viable {| Pid := 4242 |} initial).
  unfold int_min, int_max. cbn. lia.
Defined.

(** ** The statements at concrete worlds *)

Lemma IsViable_bounded_attempts_witness :
  let rs := probes_of (skipn (List.length (trace initial))
                             (trace (snd (IsViable third_answers initial)))) in
  List.length rs = 3 /\ nth 0 rs None <> None /\ last rs (Some "") = None.
Proof.
  cbv zeta.
  destruct (IsViable_bounded_attempts third_answers initial)
    as (Hbound & Hseq & Hfail & Hlast).
  split; [reflexivity |]. split.
  - apply Hfail. vm_compute. lia.
  - apply Hlast. vm_compute. lia.
Defined.

Lemma kill_idempotent_witness :
  fst (kill second_is_viable {| Pid := 1000 |} initial) = None /\
  fst (kill kill_denied {| Pid := 1000 |} initial)
    = Some (XError "chrome.kill" (External "operation not permitted")).
Proof.
  split.
  - apply (proj1 (proj2 (kill_idempotent second_is_viable
                                         {| Pid := 1000 |} initial))).
    reflexivity.
  - apply (proj2 (proj2 (proj2 (kill_idempotent kill_denied
                                                {| Pid := 1000 |} initial))));
      reflexivity.
Defined.

Lemma restart_kills_before_launch_witness :
  restart kill_denied 1 {| Pid := 1000 |} false initial
    = (Returned (Some (XError "chrome.restart"
                         (XError "chrome.kill"
                            (External "operation not permitted")))),
       after_kill kill_denied {| Pid := 1000 |} initial).
Proof.
  apply (proj1 (proj2 (restart_kills_before_launch kill_denied false))
               0 {| Pid := 1000 |} initial "operation not permitted");
    reflexivity.
Defined.

Lemma cmd_certificate_flag_witness :
  Args (chromium true) = cmd_args true /\
  In "--ignore-certificate-errors" (Args (chromium true)).
Proof.
  destruct (cmd_certificate_flag true) as [Hin Hcmd].
  destruct (Hcmd never_viable initial) as [_ Hargs].
  split.
  - apply (Hargs (chromium true)). reflexivity.
  - apply Hin. reflexivity.
Defined.

Lemma cmd_fixed_arguments_witness :
  exists r,
    trace (snd (cmd never_viable false initial))
      = [EvCommand "chromium" contract_flags r].
Proof.
  destruct (cmd_fixed_arguments false) as (_ & _ & _ & Hev & _).
  destruct (Hev never_viable initial) as [r Hr].
  exists r. exact Hr.
Defined.

(** ** The flag of the viability loop *)

Lemma answers_iff (w : World) (c k : nat) :
  answers w k c = true <->
  exists j, j < c /\ devtool_Version w (k + j) = None.
Proof.
  revert k. induction c as [| c IH]; intros k; cbn.
  - split; [discriminate | intros (j & Hj & _); lia].
  - destruct (devtool_Version w k) as [msg |] eqn:E.
    + rewrite IH. split.
      * intros (j & Hj & Hv). exists (S j). split; [lia |].
        replace (k + S j) with (S k + j) by lia. exact Hv.
      * intros (j & Hj & Hv). destruct j as [| j].
        -- rewrite Nat.add_0_r, E in Hv. discriminate.
        -- exists j. split; [lia |].
           replace (S k + j) with (k + S j) by lia. exact Hv.
    + split; [intros _ | reflexivity].
      exists 0. split; [lia |]. rewrite Nat.add_0_r. exact E.
Qed.

Lemma last_attempt_flag (w : World) (c k : nat) :
  0 < c ->
  fst (viable_result (devtool_Version w (k + (attempts w k c - 1))))
  = answers w k c.
Proof.
  revert k. induction c as [| c IH]; intros k Hc; [lia |].
  cbn [attempts answers].
  destruct (devtool_Version w k) as [msg |] eqn:E.
  - destruct c as [| c].
    + cbn. rewrite Nat.add_0_r, E. reflexivity.
    + pose proof (attempts_pos w (S c) (S k)) as Hp.
      replace (k + (S (attempts w (S k) (S c)) - 1))
        with (S k + (attempts w (S k) (S c) - 1)) by lia.
      apply IH. lia.
  - cbn. rewrite Nat.add_0_r, E. reflexivity.
Qed.

Lemma IsViable_flag (w : World) (st : State) :
  fst (fst (IsViable w st)) = answers w (nversion st) 20.
Proof.
  rewrite IsViable_spec. cbn [fst]. apply last_attempt_flag. lia.
Qed.

(** X1. [IsViable] reports viable exactly when one of the next 20 queries
    answers, and its error is nil exactly when it reports viable: it never
    returns false without an error, nor true with one. *)
Theorem IsViable_true_iff (w : World) (st : State) :
  (fst (fst (IsViable w st)) = true <->
   exists j, j < 20 /\ devtool_Version w (nversion st + j) = None) /\
  (snd (fst (IsViable w st)) = None <-> fst (fst (IsViable w st)) = true).
Proof.
  split.
  - rewrite IsViable_flag. apply answers_iff.
  - rewrite IsViable_spec. cbn [fst].
    destruct (devtool_Version w _); cbn; split; intros H;
      solve [reflexivity | discriminate H].
Qed.

(** ** A run stops at the first failure *)

Lemma existsb_fatal_probe_events (w : World) (a k : nat) :
  existsb is_fatal (probe_events w k a) = false.
Proof.
  revert k. induction a as [| a IH]; intros k; [reflexivity |].
  cbn. apply IH.
Qed.

Lemma fatal_last_clean (l : list event) :
  existsb is_fatal l = false -> fatal_last l = true.
Proof.
  induction l as [| e l IH]; cbn; [reflexivity |].
  destruct (is_fatal e); [discriminate | exact IH].
Qed.

Lemma fatal_last_snoc (t : list event) (e : event) :
  existsb is_fatal t = false -> fatal_last (t ++ [e]) = true.
Proof.
  induction t as [| x t IH]; cbn.
  - intros _. destruct (is_fatal e); reflexivity.
  - destruct (is_fatal x); [discriminate | exact IH].
Qed.

Lemma stopped_wrap (op : string) (o : outcome (option error))
      (l : list event) :
  stopped o l -> stopped (wrap op o) l.
Proof. destruct o as [[e |] |]; exact (fun H => H). Qed.

Section Stopping.

Variable w : World.
Variable b : bool.

Lemma launch_stopped (st st1 : State) (r : launched) :
  existsb is_fatal (trace st) = false ->
  launch_and_probe w b st = (r, st1) ->
  match r with
  | Failed e => stopped (Returned (Some e)) (trace st1)
  | Viable | NotViable _ => existsb is_fatal (trace st1) = false
  end.
Proof.
  intros Hclean. rewrite launch_and_probe_unfold.
  destruct (xexec_Command w (ncommand st)) as [msg |] eqn:Ec.
  - intros [= <- <-]. cbn [stopped after_Command trace].
    eexists _, _. split; [reflexivity |]. rewrite Ec. auto.
  - cbv zeta. cbn [after_Command nstart].
    destruct (Cmd_Start w (nstart st)) as [msg | pid] eqn:Es.
    + intros [= <- <-]. cbn [stopped after_Start after_Command trace nstart].
      eexists _, _. split; [reflexivity |]. rewrite Es, Ec.
      split; [| reflexivity]. rewrite existsb_app, Hclean. reflexivity.
    + intros [= <- <-].
      assert (H : existsb is_fatal
                    (trace (after_IsViable w
                       (after_Start w (chromium b) (after_Command w b st))))
                  = false).
      { cbn [after_IsViable after_Start after_Command trace nstart nversion].
        rewrite !existsb_app, Hclean, Es, Ec, existsb_fatal_probe_events.
        reflexivity. }
      destruct (fst (fst (IsViable w _))); exact H.
Qed.

Lemma restart_stopped (depth : nat) :
  forall (proc : Process) (st st' : State) (o : outcome (option error)),
    existsb is_fatal (trace st) = false ->
    restart w depth proc b st = (o, st') ->
    stopped o (trace st').
Proof.
  induction depth as [| depth IH]; intros proc st st' o Hclean.
  - cbn. unfold ret. intros [= <- <-]. exact Hclean.
  - rewrite restart_unfold, kill_unfold'.
    destruct (kill_ok (syscall_Kill w (nkill st))) eqn:Hok.
    + assert (Hk : existsb is_fatal (trace (after_kill w proc st)) = false).
      { cbn [after_kill trace]. rewrite existsb_app, Hclean. cbn.
        rewrite Hok. reflexivity. }
      destruct (launch_and_probe w b (after_kill w proc st)) as [r st1] eqn:El.
      pose proof (launch_stopped _ _ _ Hk El) as Hl.
      destruct r as [e | | p]; try (intros [= <- <-]; exact Hl).
      destruct (restart w depth p b st1) as [o2 st2] eqn:Er.
      intros [= <- <-]. apply stopped_wrap. exact (IH _ _ _ _ Hl Er).
    + destruct (syscall_Kill w (nkill st)) as [msg |] eqn:Em;
        [| discriminate Hok].
      intros [= <- <-]. cbn [stopped after_kill trace].
      eexists _, _. split; [reflexivity |]. split; [exact Hclean |].
      cbn. rewrite Em, Hok. reflexivity.
Qed.

Lemma Start_stopped (depth : nat) (st : State) :
  existsb is_fatal (trace st) = false ->
  stopped (fst (Start w depth b st)) (trace (snd (Start w depth b st))).
Proof.
  intros Hclean. rewrite Start_unfold.
  destruct (launch_and_probe w b st) as [r st1] eqn:El.
  pose proof (launch_stopped _ _ _ Hclean El) as Hl.
  destruct r as [e | | p]; try exact Hl.
  destruct (restart w depth p b st1) as [o2 st2] eqn:Er.
  cbn [fst snd]. apply stopped_wrap. exact (restart_stopped _ _ _ _ _ Hl Er).
Qed.

End Stopping.

(** X2. A run of [Start] stops at the first failure of a command
    construction, of a start or of a kill (no such process apart): no event
    follows such a failure, nothing is retried, and [Start] returns an error
    exactly when its trace holds one. *)
Theorem Start_stops_at_first_failure (w : World) (b : bool) (depth : nat) :
  fatal_last (trace (snd (Start w depth b initial))) = true /\
  (existsb is_fatal (trace (snd (Start w depth b initial))) = true <->
   exists err, fst (Start w depth b initial) = Returned (Some err)).
Proof.
  pose proof (Start_stopped w b depth initial eq_refl) as H.
  destruct (Start w depth b initial) as [o st']. cbn [fst snd] in *.
  destruct o as [[e |] |]; cbn [stopped] in H.
  - destruct H as (t & x & -> & Ht & Hx). split.
    + apply fatal_last_snoc. exact Ht.
    + split; [intros _; exists e; reflexivity |].
      intros _. rewrite existsb_app, Ht. cbn. rewrite Hx. reflexivity.
  - split; [apply fatal_last_clean; exact H |].
    rewrite H. split; [discriminate | intros [err Herr]; discriminate Herr].
  - split; [apply fatal_last_clean; exact H |].
    rewrite H. split; [discriminate | intros [err Herr]; discriminate Herr].
Qed.

(** ** The port when [Start] returns *)

Lemma probe_events_end (w : World) (c k : nat) :
  answers w k c = true ->
  exists t, probe_events w k (attempts w k c) = t ++ [EvVersion endpoint None].
Proof.
  revert k. induction c as [| c IH]; intros k; cbn [answers attempts];
    [discriminate |].
  destruct (devtool_Version w k) as [msg |] eqn:E.
  - intros H. destruct (IH _ H) as [t Ht].
    exists (EvSleep :: EvVersion endpoint (Some msg) :: t).
    cbn [probe_events]. rewrite E, Ht. reflexivity.
  - intros _. exists [EvSleep]. cbn. rewrite E. reflexivity.
Qed.

Lemma port_after_wrap (op : string) (s0 : slot) (o : outcome (option error))
      (st : State) :
  port_after s0 o st -> port_after s0 (wrap op o) st.
Proof. destruct o as [[e |] |]; exact (fun H => H). Qed.

Section Port.

Variable w : World.
Variable b : bool.

Lemma launch_viable_end (st st1 : State) :
  launch_and_probe w b st = (Viable, st1) ->
  exists t, trace st1 = t ++ [EvVersion endpoint None].
Proof.
  rewrite launch_and_probe_unfold.
  destruct (xexec_Command w (ncommand st)); [discriminate |].
  cbv zeta. destruct (Cmd_Start w _); [discriminate |].
  rewrite IsViable_flag.
  destruct (answers w _ 20) eqn:Ea; [| discriminate].
  intros [= <-]. destruct (probe_events_end _ _ _ Ea) as [t Ht].
  cbn [after_IsViable trace]. rewrite Ht, app_assoc. eexists. reflexivity.
Qed.

Lemma restart_port (depth : nat) :
  forall (proc : Process) (st st' : State) (s0 : slot)
         (o : outcome (option error)),
    lifecycle s0 (trace st) = Some (Live (Pid proc)) ->
    restart w depth proc b st = (o, st') ->
    port_after s0 o st'.
Proof.
  induction depth as [| depth IH]; intros proc st st' s0 o Hlive.
  - cbn. unfold ret. intros [= <- <-]. exists (Pid proc). exact Hlive.
  - rewrite restart_unfold, kill_unfold'.
    assert (Hk : lifecycle s0 (trace (after_kill w proc st)) =
                 Some (if kill_ok (syscall_Kill w (nkill st))
                       then Free else Stuck)).
    { cbn [after_kill trace]. rewrite lifecycle_app, Hlive. cbn.
      rewrite Z.eqb_refl. reflexivity. }
    destruct (kill_ok (syscall_Kill w (nkill st))) eqn:Hok.
    + destruct (launch_and_probe w b (after_kill w proc st)) as [r st1] eqn:El.
      pose proof (launch_lifecycle w b s0 _ _ _ Hk El) as Hl.
      destruct r as [e | | p].
      * intros [= <- <-]. left. exact Hl.
      * intros [= <- <-]. destruct Hl as [pid Hpid].
        destruct (launch_viable_end _ _ El) as [t Ht].
        exists pid, t. auto.
      * destruct (restart w depth p b st1) as [o2 st2] eqn:Er.
        intros [= <- <-]. apply port_after_wrap. exact (IH _ _ _ _ _ Hl Er).
    + destruct (syscall_Kill w (nkill st)) as [msg |] eqn:Em;
        [| discriminate Hok].
      intros [= <- <-]. right. exact Hk.
Qed.

Lemma Start_port (depth : nat) (st : State) (s0 : slot) :
  lifecycle s0 (trace st) = Some Free ->
  port_after s0 (fst (Start w depth b st)) (snd (Start w depth b st)).
Proof.
  intros H0. rewrite Start_unfold.
  destruct (launch_and_probe w b st) as [r st1] eqn:El.
  pose proof (launch_lifecycle w b s0 _ _ _ H0 El) as Hl.
  destruct r as [e | | p].
  - left. exact Hl.
  - destruct Hl as [pid Hpid].
    destruct (launch_viable_end _ _ El) as [t Ht].
    exists pid, t. auto.
  - destruct (restart w depth p b st1) as [o2 st2] eqn:Er.
    cbn [fst snd]. apply port_after_wrap.
    exact (restart_port _ _ _ _ _ _ Hl Er).
Qed.

End Port.

(** X3. When [Start] returns nil, a process it started is live and the last
    thing that happened is a query that answered.  When [Start] returns an
    error, it leaves no process it started behind, unless the kill of that
    process is what failed. *)
Theorem Start_leaves_no_orphan (w : World) (b : bool) (depth : nat) :
  port_after Free (fst (Start w depth b initial))
                  (snd (Start w depth b initial)).
Proof. apply Start_port. reflexivity. Qed.

(** ** Twenty failed probes before a kill, a pause before a probe *)

Lemma scan_app {T : Type} (step : T -> event -> option T)
      (l1 l2 : list event) (s : T) :
  scan step s (l1 ++ l2) =
  match scan step s l1 with
  | Some s' => scan step s' l2
  | None => None
  end.
Proof.
  revert s. induction l1 as [| e l1 IH]; intros s; cbn; [reflexivity |].
  destruct (step s e); [apply IH | reflexivity].
Qed.

Lemma watch_probe_events (w : World) (c : nat) :
  forall n k,
    n + c <= 20 ->
    scan watch_step (Waiting n) (probe_events w k (attempts w k c)) =
    Some (if answers w k c then Answered else Waiting (n + c)).
Proof.
  induction c as [| c IH]; intros n k Hn; cbn [attempts answers].
  - cbn. rewrite Nat.add_0_r. reflexivity.
  - destruct (devtool_Version w k) as [msg |] eqn:E;
      cbn [probe_events scan watch_step]; rewrite E;
      replace (n <? 20)%nat with true by (symmetry; apply Nat.ltb_lt; lia).
    + rewrite IH by lia. replace (S n + c) with (n + S c) by lia.
      reflexivity.
    + reflexivity.
Qed.

Lemma pause_probe_events (w : World) (a : nat) :
  forall k f,
    scan pause_step f (probe_events w k a) =
    Some (match a with O => f | S _ => false end).
Proof.
  induction a as [| a IH]; intros k f; [reflexivity |].
  cbn [probe_events scan pause_step]. rewrite IH. destruct a; reflexivity.
Qed.

Lemma wrap_nil (op : string) (o : outcome (option error)) :
  wrap op o = Returned None -> o = Returned None.
Proof. destruct o as [[e |] |]; [discriminate | reflexivity | discriminate]. Qed.

Section Watching.

Variable w : World.
Variable b : bool.

Lemma launch_watch (s0 s : watch) (st st1 : State) (r : launched) :
  scan watch_step s0 (trace st) = Some s ->
  launch_and_probe w b st = (r, st1) ->
  match r with
  | Failed _ => exists s', scan watch_step s0 (trace st1) = Some s'
  | Viable => scan watch_step s0 (trace st1) = Some Answered
  | NotViable _ => scan watch_step s0 (trace st1) = Some (Waiting 20)
  end.
Proof.
  intros Hs. rewrite launch_and_probe_unfold.
  destruct (xexec_Command w (ncommand st)) as [msg |] eqn:Ec.
  - intros [= <- <-]. cbn [after_Command trace].
    rewrite scan_app, Hs. eexists. reflexivity.
  - cbv zeta. cbn [after_Command nstart].
    destruct (Cmd_Start w (nstart st)) as [msg | pid] eqn:Es.
    + intros [= <- <-]. cbn [after_Start after_Command trace nstart].
      rewrite !scan_app, Hs, Es. eexists. reflexivity.
    + rewrite IsViable_flag. cbn [after_Start after_Command nversion].
      destruct (answers w (nversion st) 20) eqn:Ea; intros [= <- <-];
        cbn [after_IsViable after_Start after_Command trace nstart nversion];
        rewrite !scan_app, Hs, Es; cbn [scan watch_step];
        rewrite watch_probe_events by lia; rewrite Ea; reflexivity.
Qed.

Lemma restart_watch (depth : nat) :
  forall (proc : Process) (st st' : State) (s0 : watch)
         (o : outcome (option error)),
    scan watch_step s0 (trace st) = Some (Waiting 20) ->
    restart w depth proc b st = (o, st') ->
    exists s',
      scan watch_step s0 (trace st') = Some s' /\
      (o = Returned None -> s' = Answered).
Proof.
  induction depth as [| depth IH]; intros proc st st' s0 o Hs.
  - cbn. unfold ret. intros [= <- <-]. eexists. split; [exact Hs |].
    discriminate.
  - rewrite restart_unfold, kill_unfold'.
    assert (Hk : scan watch_step s0 (trace (after_kill w proc st)) = Some Idle).
    { cbn [after_kill trace]. rewrite scan_app, Hs. reflexivity. }
    destruct (kill_ok (syscall_Kill w (nkill st))) eqn:Hok.
    + destruct (launch_and_probe w b (after_kill w proc st)) as [r st1] eqn:El.
      pose proof (launch_watch _ _ _ _ _ Hk El) as Hl.
      destruct r as [e | | p].
      * intros [= <- <-]. destruct Hl as [s' Hs']. exists s'.
        split; [exact Hs' | discriminate].
      * intros [= <- <-]. exists Answered. auto.
      * destruct (restart w depth p b st1) as [o2 st2] eqn:Er.
        intros [= <- <-]. destruct (IH _ _ _ _ _ Hl Er) as (s' & Hs' & Hnil).
        exists s'. split; [exact Hs' |].
        intros H. apply Hnil. exact (wrap_nil _ _ H).
    + destruct (syscall_Kill w (nkill st)) as [msg |] eqn:Em;
        [| discriminate Hok].
      intros [= <- <-]. exists Idle. split; [exact Hk | discriminate].
Qed.

Lemma launch_pause (f0 f : bool) (st st1 : State) (r : launched) :
  scan pause_step f0 (trace st) = Some f ->
  launch_and_probe w b st = (r, st1) ->
  exists f', scan pause_step f0 (trace st1) = Some f'.
Proof.
  intros Hs. rewrite launch_and_probe_unfold.
  destruct (xexec_Command w (ncommand st)) as [msg |].
  - intros [= <- <-]. cbn [after_Command trace].
    rewrite scan_app, Hs. eexists. reflexivity.
  - cbv zeta. destruct (Cmd_Start w _) as [msg | pid].
    + intros [= <- <-]. cbn [after_Start after_Command trace].
      rewrite !scan_app, Hs. eexists. reflexivity.
    + intros [= <- <-]. cbn [after_IsViable after_Start after_Command trace].
      rewrite !scan_app, Hs. cbn [scan pause_step].
      rewrite pause_probe_events. eexists. reflexivity.
Qed.

Lemma restart_pause (depth : nat) :
  forall (proc : Process) (st st' : State) (f0 f : bool)
         (o : outcome (option error)),
    scan pause_step f0 (trace st) = Some f ->
    restart w depth proc b st = (o, st') ->
    exists f', scan pause_step f0 (trace st') = Some f'.
Proof.
  induction depth as [| depth IH]; intros proc st st' f0 f o Hs.
  - cbn. unfold ret. intros [= <- <-]. eexists. exact Hs.
  - rewrite restart_unfold, kill_unfold'.
    assert (Hk : scan pause_step f0 (trace (after_kill w proc st))
                 = Some false).
    { cbn [after_kill trace]. rewrite scan_app, Hs. reflexivity. }
    destruct (kill_ok (syscall_Kill w (nkill st))) eqn:Hok.
    + destruct (launch_and_probe w b (after_kill w proc st)) as [r st1] eqn:El.
      destruct (launch_pause _ _ _ _ _ Hk El) as [f1 Hl].
      destruct r as [e | | p]; try (intros [= <- <-]; eexists; exact Hl).
      destruct (restart w depth p b st1) as [o2 st2] eqn:Er.
      intros [= <- <-]. exact (IH _ _ _ _ _ _ Hl Er).
    + destruct (syscall_Kill w (nkill st)); [| discriminate Hok].
      intros [= <- <-]. eexists. exact Hk.
Qed.

End Watching.

(** X4. In every run of [Start] a process is killed only after 20 probes of
    it have failed and none has answered; no process is probed more than 20
    times, nor after it has answered; and when [Start] returns nil the
    process last started has answered. *)
Theorem Start_kills_only_after_20_failures
        (w : World) (b : bool) (depth : nat) :
  exists s,
    scan watch_step Idle (trace (snd (Start w depth b initial))) = Some s /\
    (fst (Start w depth b initial) = Returned None -> s = Answered).
Proof.
  rewrite Start_unfold.
  destruct (launch_and_probe w b initial) as [r st1] eqn:El.
  pose proof (launch_watch w b Idle Idle initial _ _ eq_refl El) as Hl.
  destruct r as [e | | p]; cbn [fst snd].
  - destruct Hl as [s' Hs']. exists s'. split; [exact Hs' | discriminate].
  - exists Answered. auto.
  - destruct (restart w depth p b st1) as [o2 st2] eqn:Er. cbn [fst snd].
    destruct (restart_watch w b _ _ _ _ _ _ Hl Er) as (s' & Hs' & Hnil).
    exists s'. split; [exact Hs' |].
    intros H. apply Hnil. exact (wrap_nil _ _ H).
Qed.

(** X5. In every run of [Start] each query of the endpoint comes right
    after a warmup pause. *)
Theorem Start_pauses_before_each_probe (w : World) (b : bool) (depth : nat) :
  exists f,
    scan pause_step false (trace (snd (Start w depth b initial))) = Some f.
Proof.
  rewrite Start_unfold.
  destruct (launch_and_probe w b initial) as [r st1] eqn:El.
  destruct (launch_pause w b false false initial _ _ eq_refl El) as [f1 Hl].
  destruct r as [e | | p]; cbn [snd]; try (eexists; exact Hl).
  destruct (restart w depth p b st1) as [o2 st2] eqn:Er. cbn [snd].
  exact (restart_pause w b _ _ _ _ _ _ _ Hl Er).
Qed.

(** ** One command for every launch *)

(** X6. In every run of [Start], whatever the number of restarts, each
    command built is chromium with the arguments of the certificate setting
    [Start] was called with, and each command started is that command with
    Setpgid set, so that every process is the leader of a new group. *)
Theorem Start_relaunches_same_command (w : World) (b : bool) (depth : nat) :
  Forall (fun e =>
            match e with
            | EvCommand bin args _ => bin = "chromium" /\ args = cmd_args b
            | EvStart c _ =>
                Path c = "chromium" /\ Args c = cmd_args b /\
                SysProcAttr_ c = Some {| Setpgid := true |}
            | EvKill _ _ _ | EvSleep | EvVersion _ _ => True
            end)
         (trace (snd (Start w depth b initial))).
Proof.
  apply Start_invariant; try constructor; intros; repeat split.
Qed.

(** ** Results and the bound on the depth *)

Section Deeper.

Variable w : World.
Variable b : bool.




End Deeper.


(** ** Recovery after failed launches *)

Lemma attempts_no_answer (w : World) (c k : nat) :
  (forall n, n < c -> devtool_Version w (k + n) <> None) ->
  attempts w k c = c /\ answers w k c = false.
Proof.
  revert k. induction c as [| c IH]; intros k H; cbn [attempts answers];
    [split; reflexivity |].
  destruct (devtool_Version w k) as [msg |] eqn:E.
  - destruct (IH (S k)) as [Ha Hb].
    + intros n Hn. replace (S k + n) with (k + S n) by lia. apply H. lia.
    + rewrite Ha, Hb. split; reflexivity.
  - exfalso. apply (H 0); [lia |]. rewrite Nat.add_0_r. exact E.
Qed.

Lemma attempts_answer (w : World) (c : nat) :
  forall k j,
    j < c ->
    (forall n, n < j -> devtool_Version w (k + n) <> None) ->
    devtool_Version w (k + j) = None ->
    attempts w k c = S j /\ answers w k c = true.
Proof.
  induction c as [| c IH]; intros k j Hj Hfail Hans; [lia |].
  cbn [attempts answers].
  destruct (devtool_Version w k) as [msg |] eqn:E.
  - destruct j as [| j].
    + rewrite Nat.add_0_r, E in Hans. discriminate.
    + destruct (IH (S k) j) as [Ha Hb].
      * lia.
      * intros n Hn. replace (S k + n) with (k + S n) by lia.
        apply Hfail. lia.
      * replace (S k + j) with (k + S j) by lia. exact Hans.
      * rewrite Ha, Hb. split; reflexivity.
  - destruct j as [| j]; [split; reflexivity |].
    exfalso. apply (Hfail 0); [lia |]. rewrite Nat.add_0_r. exact E.
Qed.

Section Recovery.

Variable w : World.
Variable b : bool.

Hypothesis commands_succeed : forall n, xexec_Command w n = None.
Hypothesis starts_succeed : forall n, exists pid, Cmd_Start w n = inr pid.
Hypothesis kills_succeed : forall n, kill_ok (syscall_Kill w n) = true.

(** A launch whose probe loop makes [a] attempts. *)
Lemma launch_counts (st : State) :
  exists pid,
    launch_and_probe w b st =
    (if answers w (nversion st) 20 then Viable else NotViable {| Pid := pid |},
     after_IsViable w (after_Start w (chromium b) (after_Command w b st))) /\
    forall a, attempts w (nversion st) 20 = a ->
      let st1 :=
        after_IsViable w (after_Start w (chromium b) (after_Command w b st)) in
      nversion st1 = nversion st + a /\
      count is_kill (trace st1) = count is_kill (trace st) /\
      count is_launch (trace st1) = count is_launch (trace st) + 1 /\
      count is_probe (trace st1) = count is_probe (trace st) + a.
Proof.
  destruct (starts_succeed (nstart st)) as [pid Es]. exists pid. split.
  - rewrite launch_and_probe_unfold, commands_succeed. cbv zeta.
    cbn [after_Command nstart]. rewrite Es, IsViable_flag. reflexivity.
  - intros a Ha. cbv zeta.
    cbn [after_IsViable after_Start after_Command trace nstart nversion].
    rewrite Es, Ha, !count_app.
    destruct (count_probe_events w a (nversion st)) as (-> & -> & ->).
    unfold count. cbn. repeat split; lia.
Qed.

Lemma restart_recovers (j : nat) (Hj : j < 20) (r : nat) :
  forall (depth : nat) (proc : Process) (st : State),
    r < depth ->
    (forall n, n < 20 * r + j -> devtool_Version w (nversion st + n) <> None) ->
    devtool_Version w (nversion st + (20 * r + j)) = None ->
    exists st',
      restart w depth proc b st = (Returned None, st') /\
      count is_kill (trace st') = count is_kill (trace st) + S r /\
      count is_launch (trace st') = count is_launch (trace st) + S r /\
      count is_probe (trace st') = count is_probe (trace st) + (20 * r + S j).
Proof.
  induction r as [| r IH]; intros depth proc st Hd Hfail Hans;
    (destruct depth as [| depth]; [lia |]);
    rewrite restart_unfold, kill_unfold', kills_succeed;
    destruct (launch_counts (after_kill w proc st)) as (pid & -> & Hc);
    cbn [after_kill nversion] in Hc |- *.
  - destruct (attempts_answer w 20 (nversion st) j Hj) as [Ha ->].
    + intros n Hn. apply Hfail. lia.
    + replace (nversion st + j) with (nversion st + (20 * 0 + j)) by lia.
      exact Hans.
    + destruct (Hc _ Ha) as (_ & Hk & Hl & Hp). cbv zeta in *.
      eexists. split; [reflexivity |].
      cbn [after_kill trace] in Hk, Hl, Hp.
      rewrite count_app in Hk, Hl, Hp.
      change (count is_kill [EvKill _ _ _]) with 1 in Hk.
      change (count is_launch [EvKill _ _ _]) with 0 in Hl.
      change (count is_probe [EvKill _ _ _]) with 0 in Hp.
      repeat split; lia.
  - destruct (attempts_no_answer w 20 (nversion st)) as [Ha ->].
    + intros n Hn. apply Hfail. lia.
    + destruct (Hc _ Ha) as (Hv & Hk & Hl & Hp). cbv zeta in *.
      match goal with
      | |- context [restart w depth ?p b ?s1] =>
          destruct (IH depth p s1) as (st' & -> & Hk' & Hl' & Hp')
      end.
      * lia.
      * intros n Hn. rewrite Hv.
        replace (nversion st + 20 + n) with (nversion st + (20 + n)) by lia.
        apply Hfail. lia.
      * rewrite Hv.
        replace (nversion st + 20 + (20 * r + j))
          with (nversion st + (20 * S r + j)) by lia.
        exact Hans.
      * exists st'. split; [reflexivity |].
        cbn [after_kill trace] in Hk, Hl, Hp.
        rewrite count_app in Hk, Hl, Hp.
        change (count is_kill [EvKill _ _ _]) with 1 in Hk.
        change (count is_launch [EvKill _ _ _]) with 0 in Hl.
        change (count is_probe [EvKill _ _ _]) with 0 in Hp.
        repeat split; lia.
Qed.

End Recovery.

(** X8. When launches succeed and kills go through, and the first process
    to answer is the one of cycle [k] (counted from 0), at its attempt [j]
    (counted from 0, below 20), [Start] returns nil as soon as the depth
    granted is at least [k]: it has then killed [k] processes, started
    [k + 1] and made [20 * k + j + 1] probe attempts. *)
Theorem Start_recovers (w : World) (b : bool) (k j depth : nat) :
  (forall n, xexec_Command w n = None) ->
  (forall n, exists pid, Cmd_Start w n = inr pid) ->
  (forall n, kill_ok (syscall_Kill w n) = true) ->
  j < 20 ->
  (forall n, n < 20 * k + j -> devtool_Version w n <> None) ->
  devtool_Version w (20 * k + j) = None ->
  k <= depth ->
  exists st',
    Start w depth b initial = (Returned None, st') /\
    count is_kill (trace st') = k /\
    count is_launch (trace st') = S k /\
    count is_probe (trace st') = 20 * k + S j.
Proof.
  intros Hc Hs Hk Hj Hfail Hans Hd. rewrite Start_unfold.
  destruct (launch_counts w b Hc Hs initial) as (pid & -> & Hn).
  cbn [initial nversion] in Hn |- *.
  destruct k as [| k].
  - destruct (attempts_answer w 20 0 j Hj) as [Ha ->].
    + intros n Hlt. apply Hfail. lia.
    + exact Hans.
    + destruct (Hn _ Ha) as (_ & Hk0 & Hl0 & Hp0). cbv zeta in *.
      eexists. split; [reflexivity |].
      change (count is_kill (trace initial)) with 0 in Hk0.
      change (count is_launch (trace initial)) with 0 in Hl0.
      change (count is_probe (trace initial)) with 0 in Hp0.
      repeat split; lia.
  - destruct (attempts_no_answer w 20 0) as [Ha ->].
    + intros n Hlt. apply Hfail. lia.
    + destruct (Hn _ Ha) as (Hv & Hk0 & Hl0 & Hp0). cbv zeta in *.
      match goal with
      | |- context [restart w depth ?p b ?s1] =>
          destruct (restart_recovers w b Hc Hs Hk j Hj k depth p s1)
            as (st' & -> & Hk' & Hl' & Hp')
      end.
      * lia.
      * intros n Hlt. rewrite Hv. apply Hfail. lia.
      * rewrite Hv. replace (0 + 20 + (20 * k + j)) with (20 * S k + j) by lia.
        exact Hans.
      * exists st'. split; [reflexivity |].
        change (count is_kill (trace initial)) with 0 in Hk0.
        change (count is_launch (trace initial)) with 0 in Hl0.
        change (count is_probe (trace initial)) with 0 in Hp0.
        repeat split; lia.
Qed.

Lemma Start_recovers_witness :
  exists st',
    Start second_is_viable 3 true initial = (Returned None, st') /\
    count is_kill (trace st') = 1 /\
    count is_launch (trace st') = 2 /\
    count is_probe (trace st') = 20 * 1 + 1.
Proof.
  apply (Start_recovers second_is_viable true 1 0 3).
  - intros n. reflexivity.
  - intros n. eexists. reflexivity.
  - intros n. reflexivity.
  - lia.
  - intros n Hn. cbn [second_is_viable devtool_Version].
    destruct (Nat.ltb_spec n 20); [discriminate | lia].
  - reflexivity.
  - lia.
Defined.

(** ** The error of a run *)

Section Chain.

Variable w : World.
Variable b : bool.

Lemma launch_failed_exact (st st1 : State) (e : error) :
  launch_and_probe w b st = (Failed e, st1) ->
  count is_kill (trace st1) = count is_kill (trace st) /\
  exists t ev, trace st1 = t ++ [ev] /\ failure_error ev = Some e.
Proof.
  rewrite launch_and_probe_unfold.
  destruct (xexec_Command w (ncommand st)) as [msg |] eqn:Ec.
  - intros [= <- <-]. cbn [after_Command trace]. rewrite count_app, Ec.
    split; [unfold count; cbn; lia |].
    eexists _, _. split; reflexivity.
  - cbv zeta. cbn [after_Command nstart].
    destruct (Cmd_Start w (nstart st)) as [msg | pid] eqn:Es.
    + intros [= <- <-]. cbn [after_Start after_Command trace nstart].
      rewrite !count_app, Es, Ec.
      split; [unfold count; cbn; lia |].
      eexists _, _. split; reflexivity.
    + destruct (fst (fst (IsViable w _))); discriminate.
Qed.

Lemma launch_kills (st st1 : State) (r : launched) :
  launch_and_probe w b st = (r, st1) ->
  count is_kill (trace st1) = count is_kill (trace st).
Proof.
  rewrite launch_and_probe_unfold.
  destruct (xexec_Command w (ncommand st)) as [msg |].
  - intros [= <- <-]. cbn [after_Command trace]. rewrite count_app.
    unfold count. cbn. lia.
  - cbv zeta. destruct (Cmd_Start w _) as [msg | pid].
    + intros [= <- <-]. cbn [after_Start after_Command trace].
      rewrite !count_app. unfold count. cbn. lia.
    + intros [= <- <-].
      cbn [after_IsViable after_Start after_Command trace nstart nversion].
      rewrite !count_app.
      destruct (count_probe_events w (attempts w (nversion st) 20)
                                   (nversion st)) as (-> & _ & _).
      unfold count. cbn. lia.
Qed.

Lemma restart_error_exact (depth : nat) :
  forall (proc : Process) (st st' : State) (e : error),
    restart w depth proc b st = (Returned (Some e), st') ->
    exists n t ev inner,
      count is_kill (trace st') = count is_kill (trace st) + n /\
      trace st' = t ++ [ev] /\
      failure_error ev = Some inner /\
      e = wrap_n n "chrome.restart" inner.
Proof.
  induction depth as [| depth IH]; intros proc st st' e; [discriminate |].
  rewrite restart_unfold, kill_unfold'.
  assert (Hk : count is_kill (trace (after_kill w proc st))
               = count is_kill (trace st) + 1).
  { cbn [after_kill trace]. rewrite count_app. reflexivity. }
  destruct (kill_ok (syscall_Kill w (nkill st))) eqn:Hok.
  - destruct (launch_and_probe w b (after_kill w proc st))
      as [[e0 | | p] st1] eqn:El.
    + intros [= <- <-].
      destruct (launch_failed_exact _ _ _ El) as (Hc & t & ev & Ht & Hev).
      exists 1, t, ev, e0. split; [lia |]. auto.
    + discriminate.
    + pose proof (launch_kills _ _ _ El) as Hc.
      destruct (restart w depth p b st1) as [[[e2 |] |] st2] eqn:Er;
        try discriminate.
      intros [= <- <-].
      destruct (IH _ _ _ _ Er) as (n & t & ev & inner & Hn & Ht & Hev & ->).
      exists (S n), t, ev, inner. split; [lia |]. auto.
  - destruct (syscall_Kill w (nkill st)) as [msg |] eqn:Em;
      [| discriminate Hok].
    intros [= <- <-].
    exists 1, (trace st), (EvKill (neg_int (Pid proc)) SIGKILL (Some msg)),
      (XError "chrome.kill" (External msg)).
    split; [exact Hk |]. cbn [after_kill trace failure_error].
    unfold kill_ok in Hok. rewrite Em, Hok. auto.
Qed.

End Chain.

(** X9. An error returned by [Start] is fixed by the failure that ended the
    run and by the number of kills: the run's last event is a failed command
    construction, a failed start or a failed kill; the error is chrome.Start
    around chrome.restart once for every kill of the run around the error of
    that failure, which is chrome.cmd of the text for a command, the bare
    text for a start, chrome.kill of the text for a kill. *)
Theorem Start_error_chain (w : World) (b : bool) (depth : nat) (e : error) :
  fst (Start w depth b initial) = Returned (Some e) ->
  exists t ev inner,
    trace (snd (Start w depth b initial)) = t ++ [ev] /\
    failure_error ev = Some inner /\
    e = XError "chrome.Start"
          (wrap_n (count is_kill (trace (snd (Start w depth b initial))))
                  "chrome.restart" inner).
Proof.
  rewrite Start_unfold.
  destruct (launch_and_probe w b initial) as [[e0 | | p] st1] eqn:El;
    cbn [fst snd].
  - intros [= <-].
    destruct (launch_failed_exact w b _ _ _ El) as (Hc & t & ev & Ht & Hev).
    exists t, ev, e0. rewrite Hc. auto.
  - discriminate.
  - pose proof (launch_kills w b _ _ _ El) as Hc.
    destruct (restart w depth p b st1) as [[[e2 |] |] st2] eqn:Er;
      cbn [fst snd wrap]; try discriminate.
    intros [= <-].
    destruct (restart_error_exact w b _ _ _ _ _ Er)
      as (n & t & ev & inner & Hn & Ht & Hev & ->).
    exists t, ev, inner. rewrite Hn, Hc. auto.
Qed.

Lemma Start_error_chain_witness :
  exists t ev inner,
    trace (snd (Start kill_denied 1 false initial)) = t ++ [ev] /\
    failure_error ev = Some inner /\
    XError "chrome.Start"
      (XError "chrome.restart"
         (XError "chrome.kill" (External "operation not permitted")))
    = XError "chrome.Start"
        (wrap_n (count is_kill (trace (snd (Start kill_denied 1 false initial))))
                "chrome.restart" inner).
Proof.
  apply (Start_error_chain kill_denied false 1). vm_compute. reflexivity.
Defined.

(** ** The errors [kill] lets pass *)

Lemma prefix_iff (p s : string) :
  prefix p s = true <-> exists t, s = (p ++ t)%string.
Proof.
  revert s. induction p as [| a p IH]; intros s.
  - split; [intros _; exists s; reflexivity |].
    intros _. destruct s; reflexivity.
  - destruct s as [| c s]; cbn.
    + split; [discriminate | intros [t Ht]; discriminate Ht].
    + destruct (ascii_dec a c) as [-> | Hne].
      * rewrite IH. split; intros [t Ht]; exists t; congruence.
      * split; [discriminate | intros [t Ht]; congruence].
Qed.

Lemma strings_Contains_iff (s substr : string) :
  strings_Contains s substr = true <->
  exists a t, s = (a ++ substr ++ t)%string.
Proof.
  induction s as [| c s IH]; cbn [strings_Contains].
  - rewrite prefix_iff. split.
    + intros [t Ht]. exists EmptyString, t. exact Ht.
    + intros (a & t & Ht). destruct a as [| x a]; [| discriminate Ht].
      exists t. exact Ht.
  - rewrite orb_true_iff, prefix_iff, IH. split.
    + intros [[t Ht] | (a & t & Ht)].
      * exists EmptyString, t. exact Ht.
      * exists (String c a), t. cbn. rewrite Ht. reflexivity.
    + intros (a & t & Ht). destruct a as [| x a].
      * left. exists t. exact Ht.
      * right. cbn in Ht. injection Ht as _ Ht. exists a, t. exact Ht.
Qed.

(** X10. [kill] returns nil exactly when the signal was delivered or the
    text of the delivery error has no such process somewhere in it; the
    place of the phrase in the text does not matter. *)
Theorem kill_returns_nil_iff (w : World) (proc : Process) (st : State) :
  fst (kill w proc st) = None <->
  syscall_Kill w (nkill st) = None \/
  exists a t,
    syscall_Kill w (nkill st) = Some (a ++ "no such process" ++ t)%string.
Proof.
  rewrite kill_unfold. cbn [fst].
  destruct (syscall_Kill w (nkill st)) as [msg |]; [| split; auto].
  destruct (strings_Contains msg "no such process") eqn:Ec.
  - apply strings_Contains_iff in Ec. destruct Ec as (a & t & ->).
    split; [intros _; right; exists a, t; reflexivity | reflexivity].
  - split; [discriminate |].
    intros [H | (a & t & H)]; [discriminate H |].
    injection H as H.
    assert (Ht : strings_Contains msg "no such process" = true)
      by (apply strings_Contains_iff; exists a, t; exact H).
    rewrite Ht in Ec. discriminate Ec.
Qed.

(** ** When a run is cut off *)

Lemma no_answer_events (w : World) (c k : nat) :
  answers w k c = false ->
  attempts w k c = c /\ count is_answer (probe_events w k c) = 0.
Proof.
  revert k. induction c as [| c IH]; intros k; cbn [answers attempts];
    [split; reflexivity |].
  destruct (devtool_Version w k) as [msg |] eqn:E; [| discriminate].
  intros H. destruct (IH _ H) as [Ha Hc]. rewrite Ha.
  split; [reflexivity |]. cbn [probe_events]. rewrite E.
  unfold count in *. cbn. exact Hc.
Qed.

Section CutOff.

Variable w : World.
Variable b : bool.

Lemma launch_not_viable (st st1 : State) (p : Process) :
  launch_and_probe w b st = (NotViable p, st1) ->
  count is_kill (trace st1) = count is_kill (trace st) /\
  count is_launch (trace st1) = count is_launch (trace st) + 1 /\
  count is_probe (trace st1) = count is_probe (trace st) + 20 /\
  count is_answer (trace st1) = count is_answer (trace st).
Proof.
  rewrite launch_and_probe_unfold.
  destruct (xexec_Command w (ncommand st)) as [msg |]; [discriminate |].
  cbv zeta. cbn [after_Command nstart].
  destruct (Cmd_Start w (nstart st)) as [msg | pid] eqn:Es; [discriminate |].
  rewrite IsViable_flag. cbn [after_Start after_Command nversion].
  destruct (answers w (nversion st) 20) eqn:Ea; [discriminate |].
  intros [= _ <-].
  destruct (no_answer_events _ _ _ Ea) as [Ha Hc].
  cbn [after_IsViable after_Start after_Command trace nstart nversion].
  rewrite Es, Ha, !count_app, Hc.
  destruct (count_probe_events w 20 (nversion st)) as (-> & -> & ->).
  unfold count. cbn. repeat split; lia.
Qed.

Lemma restart_cut_off (depth : nat) :
  forall (proc : Process) (st st' : State),
    restart w depth proc b st = (OutOfDepth, st') ->
    count is_kill (trace st') = count is_kill (trace st) + depth /\
    count is_launch (trace st') = count is_launch (trace st) + depth /\
    count is_probe (trace st') = count is_probe (trace st) + 20 * depth /\
    count is_answer (trace st') = count is_answer (trace st).
Proof.
  induction depth as [| depth IH]; intros proc st st'.
  - cbn. unfold ret. intros [= <-]. repeat split; lia.
  - rewrite restart_unfold, kill_unfold'.
    destruct (kill_ok (syscall_Kill w (nkill st))) eqn:Hok.
    + destruct (launch_and_probe w b (after_kill w proc st))
        as [[e0 | | p] st1] eqn:El; try discriminate.
      destruct (launch_not_viable _ _ _ El) as (Hk & Hl & Hp & Ha).
      destruct (restart w depth p b st1) as [[r |] st2] eqn:Er;
        [destruct r; discriminate |].
      intros [= <-].
      destruct (IH _ _ _ Er) as (Hk2 & Hl2 & Hp2 & Ha2).
      cbn [after_kill trace] in Hk, Hl, Hp, Ha.
      rewrite count_app in Hk, Hl, Hp, Ha.
      change (count is_kill [EvKill _ _ _]) with 1 in Hk.
      change (count is_launch [EvKill _ _ _]) with 0 in Hl.
      change (count is_probe [EvKill _ _ _]) with 0 in Hp.
      change (count is_answer [EvKill _ _ _]) with 0 in Ha.
      repeat split; lia.
    + destruct (syscall_Kill w (nkill st)); discriminate.
Qed.

End CutOff.

(** X11. [Start] fails to return within the depth granted only after it
    has gone through that many kills and one more launch, each process
    probed 20 times and no query answered.  In any other run it returns. *)
Theorem Start_cut_off_only_after_failed_cycles
        (w : World) (b : bool) (depth : nat) :
  fst (Start w depth b initial) = OutOfDepth ->
  count is_kill (trace (snd (Start w depth b initial))) = depth /\
  count is_launch (trace (snd (Start w depth b initial))) = S depth /\
  count is_probe (trace (snd (Start w depth b initial))) = 20 * S depth /\
  count is_answer (trace (snd (Start w depth b initial))) = 0.
Proof.
  rewrite Start_unfold.
  destruct (launch_and_probe w b initial) as [[e0 | | p] st1] eqn:El;
    try discriminate.
  destruct (launch_not_viable w b _ _ _ El) as (Hk & Hl & Hp & Ha).
  destruct (restart w depth p b st1) as [[r |] st2] eqn:Er;
    [destruct r; discriminate |].
  intros _. cbn [snd].
  destruct (restart_cut_off w b _ _ _ _ Er) as (Hk2 & Hl2 & Hp2 & Ha2).
  change (count is_kill (trace initial)) with 0 in Hk.
  change (count is_launch (trace initial)) with 0 in Hl.
  change (count is_probe (trace initial)) with 0 in Hp.
  change (count is_answer (trace initial)) with 0 in Ha.
  repeat split; lia.
Qed.

Lemma Start_cut_off_only_after_failed_cycles_witness :
  count is_kill (trace (snd (Start never_viable 2 false initial))) = 2 /\
  count is_launch (trace (snd (Start never_viable 2 false initial))) = 3 /\
  count is_probe (trace (snd (Start never_viable 2 false initial))) = 20 * 3 /\
  count is_answer (trace (snd (Start never_viable 2 false initial))) = 0.
Proof.
  apply (Start_cut_off_only_after_failed_cycles never_viable false 2).
  vm_compute. reflexivity.
Defined.

(** ** The diagnostic of the probe never reaches the caller *)

Section NoFailure.

Variable w : World.
Variable b : bool.

Hypothesis commands_succeed : forall n, xexec_Command w n = None.
Hypothesis starts_succeed : forall n, exists pid, Cmd_Start w n = inr pid.
Hypothesis kills_succeed : forall n, kill_ok (syscall_Kill w n) = true.




End NoFailure.



